(** * Ground-control station: the message handler and the orchestrator

    A shallow embedding of [src/main/control/MessageHandler.js] and
    [src/main/control/Orchestrator.js].  Both classes are singletons that
    mutate their own fields and the objects they share (vehicles, missions),
    and a method may stop half-way with a [TypeError].  The embedding is
    therefore a state-and-exception monad over one [World] that holds both
    singletons, the two object heaps, the console and the clock. *)

From Stdlib Require Import ZArith String Ascii List Lia.
From stdpp Require Import base option gmap strings list pretty.

Open Scope string_scope.
Open Scope list_scope.

(** ** JavaScript values *)

(** The primitive values that occur in message fields.  Numbers are the
    integers the protocol uses (ids, counts, epoch milliseconds). *)
Inductive JVal : Type :=
| JUndefined
| JNull
| JBool (b : bool)
| JNum (n : Z)
| JStr (s : string).

#[global] Instance JVal_eq_dec : EqDecision JVal.
Proof. solve_decision. Defined.

(** A string stands for the string value where a value is expected. *)
Coercion JStr : string >-> JVal.

(** [String(v)], as a template literal applies it. *)
Definition toString (v : JVal) : string :=
  match v with
  | JUndefined => "undefined"
  | JNull => "null"
  | JBool true => "true"
  | JBool false => "false"
  | JNum n => pretty n
  | JStr s => s
  end.

(** Upper case of one ASCII character. *)
Definition upper_ascii (c : ascii) : ascii :=
  let n := nat_of_ascii c in
  if (97 <=? n)%nat && (n <=? 122)%nat then ascii_of_nat (n - 32) else c.

Definition isByte (c : ascii) (n : nat) : bool := (nat_of_ascii c =? n)%nat.

(** The two-byte and three-byte characters whose upper case is ASCII. *)
Definition upperOfTwoBytes (c d : ascii) : option string :=
  if isByte c 196 && isByte d 177 then Some "I"          (* U+0131 *)
  else if isByte c 197 && isByte d 191 then Some "S"     (* U+017F *)
  else if isByte c 195 && isByte d 159 then Some "SS"    (* U+00DF *)
  else None.

Definition upperOfThreeBytes (c d e : ascii) : option string :=
  if isByte c 239 && isByte d 172 then
    if isByte e 128 then Some "FF"                       (* U+FB00 *)
    else if isByte e 129 then Some "FI"
    else if isByte e 130 then Some "FL"
    else if isByte e 131 then Some "FFI"
    else if isByte e 132 then Some "FFL"
    else if isByte e 133 then Some "ST"
    else if isByte e 134 then Some "ST"                  (* U+FB06 *)
    else None
  else None.

(** [String.prototype.toUpperCase] on a string held as its UTF-8 bytes.
    The code only ever compares the result with ASCII words, so what has to
    be exact is every case in which JavaScript's result is made of ASCII
    characters only: the letters a-z, and the characters outside ASCII that
    JavaScript upper-cases to ASCII letters, which are U+0131 (dotless i, to
    I), U+017F (long s, to S), U+00DF (sharp s, to SS) and the ligatures
    U+FB00 to U+FB06 (to FF, FI, FL, FFI, FFL, ST, ST).  The bytes of any
    other character outside ASCII are kept: whatever JavaScript makes of
    such a character, its result has a character outside ASCII as well, and
    so has the result here. *)
Fixpoint toUpperCase (s : string) : string :=
  match s with
  | EmptyString => EmptyString
  | String c r =>
      match r with
      | String d r' =>
          match upperOfTwoBytes c d with
          | Some u => u +:+ toUpperCase r'
          | None =>
              match r' with
              | String e r'' =>
                  match upperOfThreeBytes c d e with
                  | Some u => u +:+ toUpperCase r''
                  | None => String (upper_ascii c) (toUpperCase r)
                  end
              | EmptyString => String (upper_ascii c) (toUpperCase r)
              end
          end
      | EmptyString => String (upper_ascii c) EmptyString
      end
  end.

(** A message is a JSON object: a finite map from field names to values. *)
Abbreviation Message := (gmap string JVal).

(** [o.f]: reading an absent field gives [undefined]. *)
Definition getField (o : Message) (f : string) : JVal :=
  default JUndefined (o !! f).

Definition hasOwnProperty (o : Message) (f : string) : bool :=
  bool_decide (is_Some (o !! f)).

(** What a caller may pass where a message is expected: the code passes
    plain strings to [asyncSendMessage] in two places. *)
Inductive Arg : Type :=
| APrim (v : JVal)
| AObj (o : Message).

(** ** Objects the sources import but do not contain *)

Module Vehicle.
(** Modelled from the spec: the [Vehicle] class is imported from
    [./Vehicle], which is not among the sources.  The fields are those of
    section 3 of the specification; [lastConnTime] and
    [vehicleTimeoutLength] carry the names [pingAgain_f] reads.  The
    specification knows one identity per vehicle, so [vehicle.vehicleId],
    which [pingAgain_f] and [addVehicle] read, is [id] as well. *)
Record t : Type := mk {
  id : JVal;
  jobsAvailable : JVal;
  status : JVal;
  isActive : bool;
  isAvailable : bool;
  lastConnTime : Z;
  vehicleTimeoutLength : Z
}.

(** Modelled from the spec: [new Vehicle(id, jobs, status)] gives an
    active, available vehicle; [now] is the clock at construction and
    [timeout] the class's timeout length. *)
Definition new (vid jobs st : JVal) (now timeout : Z) : t :=
  {| id := vid; jobsAvailable := jobs; status := st;
     isActive := true; isAvailable := true;
     lastConnTime := now; vehicleTimeoutLength := timeout |}.

(** Modelled from the spec: the setters [deactivateVehicle] calls. *)
Definition setActive (b : bool) (v : t) : t :=
  {| id := id v; jobsAvailable := jobsAvailable v; status := status v;
     isActive := b; isAvailable := isAvailable v;
     lastConnTime := lastConnTime v;
     vehicleTimeoutLength := vehicleTimeoutLength v |}.

Definition setAvailable (b : bool) (v : t) : t :=
  {| id := id v; jobsAvailable := jobsAvailable v; status := status v;
     isActive := isActive v; isAvailable := b;
     lastConnTime := lastConnTime v;
     vehicleTimeoutLength := vehicleTimeoutLength v |}.

Definition setLastConnTime (n : Z) (v : t) : t :=
  {| id := id v; jobsAvailable := jobsAvailable v; status := status v;
     isActive := isActive v; isAvailable := isAvailable v;
     lastConnTime := n;
     vehicleTimeoutLength := vehicleTimeoutLength v |}.
End Vehicle.

Module Mission.
(** Modelled from the spec: the [Mission] class is imported from
    [./Mission], which is not among the sources.  [setupComplete] is the
    answer of [missionSetupComplete()], [activeVehicles] the keys of the
    object [getMissionActiveVehicles()] returns, and [listeners] the
    schedule positions captured by the callbacks that
    [listenForStatusUpdates] has registered on this mission. *)
Record t : Type := mk {
  constructorName : string;
  name : string;
  status : string;
  setupComplete : bool;
  activeVehicles : list string;
  listeners : list nat
}.

Definition listenForStatusUpdates (missionIndex : nat) (m : t) : t :=
  {| constructorName := constructorName m; name := name m;
     status := status m; setupComplete := setupComplete m;
     activeVehicles := activeVehicles m;
     listeners := listeners m ++ [missionIndex] |}.

(** Modelled from the spec: the mission moves to another status. *)
Definition setStatus (s : string) (m : t) : t :=
  {| constructorName := constructorName m; name := name m;
     status := s; setupComplete := setupComplete m;
     activeVehicles := activeVehicles m;
     listeners := listeners m |}.
End Mission.

(** An element of the array handed to [addMissions].  For a value that is
    not a Mission the loop reads [mission.constructor.name]: [EOther] is a
    value whose [constructor] has a [name] to read (an object literal, an
    instance of another class, a number, a string), [EBare] one whose
    [constructor] is [undefined] or [null], as for [Object.create(null)]. *)
Inductive Entry : Type :=
| ENull
| EUndefined
| EBare                               (* no constructor to read a name from *)
| EOther (constructorName : string)   (* any other value that is not a Mission *)
| EMission (ref : nat).               (* a Mission object on the heap *)

(** The closures the code hands to [UpdateHandler.addHandler]. *)
Inductive Callback : Type :=
| CbPingAgain (vehicle : option nat)
    (* () => this.pingAgain_f(vehicle) *)
| CbRmMsg (msg : Arg)
    (* () => this.rmMsg(msg.id, this.messageOutbox) *)
| CbDeactivate (msg : Arg).
    (* () => orchestrator.deactivateVehicle(orchestrator.getVehicleByID(msg.tid)) *)

(** Modelled from the spec: [UpdateHandler] is imported from
    [./DataStructures/UpdateHandler], which is not among the sources.
    Section 4.2 describes it as a keyed table of pending timers with one
    entry per key, where scheduling over a key replaces its entry. *)
Record Handler : Type := mkHandler {
  onRenewed : Callback;
  onExpired : Callback;
  timeout : Z
}.

Abbreviation UpdateHandler := (gmap string Handler).

Definition addHandler (key : string) (renewed expired : Callback) (t : Z)
    (u : UpdateHandler) : UpdateHandler :=
  <[key := mkHandler renewed expired t]> u.

(** ** The two singletons and the world around them *)

Record Orchestrator : Type := mkOrchestrator {
  scheduledMissions : list nat;
  scheduledMissionsStatus : list JVal;    (* a hole reads as undefined *)
  currentMission : option nat;
  currentMissionIndex : nat;
  currentMissionVehicles : option (list string);
  nextMissionRequiredData : JVal;
  knownVehicles : list nat;
  isRunning : bool;
  vehicleStatusUpdater : UpdateHandler
}.

Record MessageHandler : Type := mkMessageHandler {
  messageOutbox : list Message;
  messagesSent : list JVal;
  messagesReceived : list JVal;
  messageIDSeed : Z;
  updateHandler : UpdateHandler
}.

Record World : Type := mkWorld {
  orchestrator : Orchestrator;
  messageHandler : MessageHandler;
  vehicles : gmap nat Vehicle.t;     (* the Vehicle objects, by reference *)
  missions : gmap nat Mission.t;     (* the Mission objects, by reference *)
  console : list (list string);      (* one entry per console.log call *)
  clock : Z                          (* Date.now() *)
}.

(** The state the two constructors leave behind. *)
Definition newOrchestrator : Orchestrator :=
  {| scheduledMissions := []; scheduledMissionsStatus := [];
     currentMission := None; currentMissionIndex := 0;
     currentMissionVehicles := None; nextMissionRequiredData := JNull;
     knownVehicles := []; isRunning := false;
     vehicleStatusUpdater := ∅ |}.

Definition newMessageHandler (now : Z) : MessageHandler :=
  {| messageOutbox := []; messagesSent := []; messagesReceived := [];
     messageIDSeed := now; updateHandler := ∅ |}.

Definition newWorld (vs : gmap nat Vehicle.t) (ms : gmap nat Mission.t)
    (now : Z) : World :=
  {| orchestrator := newOrchestrator; messageHandler := newMessageHandler now;
     vehicles := vs; missions := ms; console := []; clock := now |}.

(** Field updates. *)
Definition withOrchestrator (f : Orchestrator → Orchestrator) (w : World) : World :=
  mkWorld (f (orchestrator w)) (messageHandler w) (vehicles w) (missions w)
          (console w) (clock w).
Definition withMessageHandler (f : MessageHandler → MessageHandler) (w : World) : World :=
  mkWorld (orchestrator w) (f (messageHandler w)) (vehicles w) (missions w)
          (console w) (clock w).
Definition withVehicles (f : gmap nat Vehicle.t → gmap nat Vehicle.t) (w : World) : World :=
  mkWorld (orchestrator w) (messageHandler w) (f (vehicles w)) (missions w)
          (console w) (clock w).
Definition withMissions (f : gmap nat Mission.t → gmap nat Mission.t) (w : World) : World :=
  mkWorld (orchestrator w) (messageHandler w) (vehicles w) (f (missions w))
          (console w) (clock w).
Definition withConsole (f : list (list string) → list (list string)) (w : World) : World :=
  mkWorld (orchestrator w) (messageHandler w) (vehicles w) (missions w)
          (f (console w)) (clock w).

Definition setScheduled (ms : list nat) (ss : list JVal) (o : Orchestrator) : Orchestrator :=
  mkOrchestrator ms ss (currentMission o) (currentMissionIndex o)
    (currentMissionVehicles o) (nextMissionRequiredData o) (knownVehicles o)
    (isRunning o) (vehicleStatusUpdater o).
Definition setScheduledMissionsStatus (ss : list JVal) (o : Orchestrator) : Orchestrator :=
  setScheduled (scheduledMissions o) ss o.
Definition setCurrentMission (c : option nat) (o : Orchestrator) : Orchestrator :=
  mkOrchestrator (scheduledMissions o) (scheduledMissionsStatus o) c
    (currentMissionIndex o) (currentMissionVehicles o)
    (nextMissionRequiredData o) (knownVehicles o) (isRunning o)
    (vehicleStatusUpdater o).
Definition setCurrentMissionIndex (i : nat) (o : Orchestrator) : Orchestrator :=
  mkOrchestrator (scheduledMissions o) (scheduledMissionsStatus o)
    (currentMission o) i (currentMissionVehicles o)
    (nextMissionRequiredData o) (knownVehicles o) (isRunning o)
    (vehicleStatusUpdater o).
Definition setCurrentMissionVehicles (vs : option (list string)) (o : Orchestrator) : Orchestrator :=
  mkOrchestrator (scheduledMissions o) (scheduledMissionsStatus o)
    (currentMission o) (currentMissionIndex o) vs
    (nextMissionRequiredData o) (knownVehicles o) (isRunning o)
    (vehicleStatusUpdater o).
Definition setNextMissionRequiredData (d : JVal) (o : Orchestrator) : Orchestrator :=
  mkOrchestrator (scheduledMissions o) (scheduledMissionsStatus o)
    (currentMission o) (currentMissionIndex o) (currentMissionVehicles o)
    d (knownVehicles o) (isRunning o) (vehicleStatusUpdater o).
Definition setKnownVehicles (vs : list nat) (o : Orchestrator) : Orchestrator :=
  mkOrchestrator (scheduledMissions o) (scheduledMissionsStatus o)
    (currentMission o) (currentMissionIndex o) (currentMissionVehicles o)
    (nextMissionRequiredData o) vs (isRunning o) (vehicleStatusUpdater o).
Definition setIsRunning (b : bool) (o : Orchestrator) : Orchestrator :=
  mkOrchestrator (scheduledMissions o) (scheduledMissionsStatus o)
    (currentMission o) (currentMissionIndex o) (currentMissionVehicles o)
    (nextMissionRequiredData o) (knownVehicles o) b (vehicleStatusUpdater o).
Definition setVehicleStatusUpdater (u : UpdateHandler) (o : Orchestrator) : Orchestrator :=
  mkOrchestrator (scheduledMissions o) (scheduledMissionsStatus o)
    (currentMission o) (currentMissionIndex o) (currentMissionVehicles o)
    (nextMissionRequiredData o) (knownVehicles o) (isRunning o) u.

Definition setMessageOutbox (box : list Message) (h : MessageHandler) : MessageHandler :=
  mkMessageHandler box (messagesSent h) (messagesReceived h)
    (messageIDSeed h) (updateHandler h).
Definition setMessagesSent (l : list JVal) (h : MessageHandler) : MessageHandler :=
  mkMessageHandler (messageOutbox h) l (messagesReceived h)
    (messageIDSeed h) (updateHandler h).
Definition setMessagesReceived (l : list JVal) (h : MessageHandler) : MessageHandler :=
  mkMessageHandler (messageOutbox h) (messagesSent h) l
    (messageIDSeed h) (updateHandler h).
Definition setUpdateHandler (u : UpdateHandler) (h : MessageHandler) : MessageHandler :=
  mkMessageHandler (messageOutbox h) (messagesSent h) (messagesReceived h)
    (messageIDSeed h) u.

(** ** Running JavaScript: state and exceptions *)

Inductive JSError : Type :=
| TypeError (what : string).

Inductive Completion (A : Type) : Type :=
| Normal (a : A)
| Throw (e : JSError).
Arguments Normal {A} a.
Arguments Throw {A} e.

(** A method body: it ends normally or throws, and the world it has reached
    by then stays as it is in both cases. *)
Definition JS (A : Type) : Type := World → Completion A * World.

Definition ret {A} (a : A) : JS A := λ w, (Normal a, w).
Definition throw {A} (e : JSError) : JS A := λ w, (Throw e, w).
Definition bind {A B} (m : JS A) (k : A → JS B) : JS B :=
  λ w, match m w with
       | (Normal a, w') => k a w'
       | (Throw e, w') => (Throw e, w')
       end.
Definition gets {A} (f : World → A) : JS A := λ w, (Normal (f w), w).
Definition modify (f : World → World) : JS unit := λ w, (Normal tt, f w).

Declare Scope js_scope.
Delimit Scope js_scope with js.
Notation "x <- m ;; k" := (bind m (λ x, k))
  (at level 100, m at next level, right associativity) : js_scope.
Notation "m ;; k" := (bind m (λ _, k))
  (at level 100, right associativity) : js_scope.
Open Scope js_scope.

(** [for (const x of l) body(x)] *)
Fixpoint forOf {A} (l : list A) (body : A → JS unit) : JS unit :=
  match l with
  | [] => ret tt
  | x :: rest => body x ;; forOf rest body
  end.

(** [a[i] = x] on an array: a write at or past the end makes the array
    longer, and the positions it skips are holes, which read as
    [undefined]. *)
Definition arrayWrite (i : nat) (x : JVal) (a : list JVal) : list JVal :=
  if (i <? length a)%nat then <[i := x]> a
  else a ++ replicate (i - length a) JUndefined ++ [x].

(** [console.log(a, b, ...)] *)
Definition console_log (args : list string) : JS unit :=
  modify (withConsole (λ c, c ++ [args])).

(** [v.toUpperCase()]: only a string has the method. *)
Definition callToUpperCase (v : JVal) : JS string :=
  match v with
  | JStr s => ret (toUpperCase s)
  | JUndefined | JNull =>
      throw (TypeError "Cannot read property 'toUpperCase' of undefined or null")
  | _ => throw (TypeError "toUpperCase is not a function")
  end.

(** [a.f] where [a] may be a primitive: [undefined] and [null] have no
    properties to read, a string or number has none of the message fields. *)
Definition prop (a : Arg) (f : string) : JS JVal :=
  match a with
  | AObj o => ret (getField o f)
  | APrim JUndefined | APrim JNull =>
      throw (TypeError ("Cannot read property '" +:+ f +:+ "' of undefined or null"))
  | APrim _ => ret JUndefined
  end.

(** A reference always has its object in JavaScript.  A reference that is
    not on the modelled heap can only come from an ill-formed [World]; reading
    through it stops the method. *)
Definition derefVehicle (r : nat) : JS Vehicle.t :=
  λ w, match vehicles w !! r with
       | Some v => (Normal v, w)
       | None => (Throw (TypeError "no such object"), w)
       end.

Definition derefMission (r : nat) : JS Mission.t :=
  λ w, match missions w !! r with
       | Some m => (Normal m, w)
       | None => (Throw (TypeError "no such object"), w)
       end.

(** The three results of [isValidFormat]: [true], [false] and [null]. *)
Inductive Validity : Type := VTrue | VFalse | VNull.

Section Control.

(** Behaviour of the absent classes that no method here looks into: the
    timeout length a new [Vehicle] starts with, and what
    [Vehicle.vehicleUpdate], [Mission.missionUpdate] and
    [Mission.missionStart] do to their own object.  A status transition
    made by [missionStart] goes out on the mission's status stream before
    the call returns ([reportTransition]); the mission's call of
    [endMission] comes with a later event, when the mission has run. *)
Variable vehicleTimeout : Z.
Variable vehicleUpdate : Message → Vehicle.t → Vehicle.t.
Variable missionUpdate : Message → Mission.t → Mission.t.
Variable missionStart : JVal → Mission.t → Mission.t.

(** *** MessageHandler.js *)

Definition MessageHandler_reportFailure (failureMessage : string) : JS unit :=
  console_log ["FAILURE: (in Class `MessageHandler`) "; failureMessage].

(** [box = box.filter(obj => !(obj.id === mID)); return box;] : the
    parameter is rebound to the array [filter] builds; no field of [this]
    is written. *)
Definition rmMsg (mID : JVal) (box : list Message) : JS (list Message) :=
  let box := filter (λ obj, ¬ (getField obj "id" = mID)) box in
  ret box.

(** [return (new Date()).now();] : [now] is a property of the [Date]
    constructor, not of its instances, so the call is made on
    [undefined]. *)
Definition nextMsgID : JS JVal :=
  throw (TypeError "(intermediate value).now is not a function").

Definition messageRecipients (msg : Message) : JS (list string) :=
  t <- callToUpperCase (getField msg "type") ;;
  let recipients :=
    if decide (t = "CONNECT") then ["GCS"]
    else if decide (t = "UPDATE") then ["vehicle"]
    else [] in
  ret (recipients ++ ["GCS"]).

(** [`${msg.tid}-${msg.mID}-${msg.type}`] *)
Definition eventString (tid mID type : JVal) : string :=
  toString tid +:+ "-" +:+ toString mID +:+ "-" +:+ toString type.

(** The method is declared with the one parameter [msg]; every caller
    passes the target first, so that is what [msg] is bound to. *)
Definition asyncSendMessage (msg : Arg) : JS unit :=
  tid <- prop msg "tid" ;;
  mID <- prop msg "mID" ;;
  ty <- prop msg "type" ;;
  modify (withMessageHandler (λ h,
    setUpdateHandler
      (addHandler (eventString tid mID ty) (CbRmMsg msg) (CbDeactivate msg)
         3000 (updateHandler h)) h)).

Definition sendMessageTo (vehicle : JVal) (message : Message) : JS unit :=
  (if decide (getField message "type" = JStr "ACK")
   then
     box <- gets (λ w, messageOutbox (messageHandler w)) ;;
     box' <- rmMsg (getField message "ackID") box ;;
     modify (withMessageHandler (setMessageOutbox box'))
   else ret tt) ;;
  recipients <- messageRecipients message ;;
  forOf recipients (λ v, asyncSendMessage (APrim (JStr v))) ;;
  modify (withMessageHandler (λ h,
    setMessagesSent (messagesSent h ++ [getField message "id"]) h)).

(** The [switch] of [isValidFormat].  Its scrutinee is upper-cased, so the
    ['badMessage'] case is listed as the code has it; its body calls
    [MessageHandler.log], which the class does not define. *)
Definition typeFields (t : string) : JS (list string) :=
  if decide (t = "UPDATE") then ret []
  else if decide (t = "ACK") then ret ["ackID"; "ackType"]
  else if decide (t = "CONNECT") then ret ["jobsAvailable"]
  else if decide (t = "POI") then ret ["lat"; "lon"]
  else if decide (t = "COMPLETE") then ret ["missionData"]
  else if decide (t = "badMessage")
       then throw (TypeError "MessageHandler.log is not a function")
  else ret [].

Definition missingFields (msg : Message) (reqdFields : list string) : list string :=
  filter (λ field, hasOwnProperty msg field = false) reqdFields.

Definition isValidFormat (msg : Message) : JS Validity :=
  if negb (hasOwnProperty msg "type") then ret VNull
  else
    t <- callToUpperCase (getField msg "type") ;;
    extra <- typeFields t ;;
    let reqdFields := ["id"; "type"; "vehicleID"] ++ extra in
    let missing := missingFields msg reqdFields in
    let rv := negb (0 <? length missing)%nat in
    if negb rv then
      if hasOwnProperty msg "vehicleID" then
        i <- nextMsgID ;;
        sendMessageTo (getField msg "vehicleID")
          (list_to_map
             [("id", i); ("type", JStr "badMessage");
              ("error", JStr ("Missing fields: " +:+ String.concat ", " missing))]) ;;
        ret VFalse
      else ret VNull
    else ret VTrue.

Definition ack (msg : Message) : JS unit :=
  i <- nextMsgID ;;
  let ackMsg : Message :=
    list_to_map
      [("id", i); ("tid", getField msg "sid"); ("sid", JStr "GCS");
       ("type", JStr "ACK"); ("ackID", getField msg "id")] in
  asyncSendMessage (APrim (getField msg "sid")).

(** *** Orchestrator.js *)

Definition Orchestrator_log (failureMessage : string) : JS unit :=
  console_log ["FAILURE: (in Class `Orchestrator`) "; failureMessage].

(** The loop of [getVehicleByID]: the first known vehicle whose [id] is
    [vID], or [null]. *)
Fixpoint findVehicle (heap : gmap nat Vehicle.t) (vID : JVal)
    (known : list nat) : option nat :=
  match known with
  | [] => None
  | v :: rest =>
      if decide (Vehicle.id <$> heap !! v = Some vID) then Some v
      else findVehicle heap vID rest
  end.

Definition getVehicleByID (vID : JVal) : JS (option nat) :=
  gets (λ w, findVehicle (vehicles w) vID (knownVehicles (orchestrator w))).

Definition deactivateVehicle (vehicle : option nat) : JS unit :=
  match vehicle with
  | None => throw (TypeError "Cannot read property 'setActive' of null")
  | Some r =>
      modify (withVehicles (alter (Vehicle.setActive false) r)) ;;
      modify (withVehicles (alter (Vehicle.setAvailable false) r))
  end.

(** A [vehicle] that is a reference is a [Vehicle], so the first disjunct
    of the guard is false and [!vehicle.isActive] decides; on [null] that
    read throws. *)
Definition pingAgain_f (vehicle : option nat) : JS unit :=
  match vehicle with
  | None => throw (TypeError "Cannot read property 'isActive' of null")
  | Some r =>
      v <- derefVehicle r ;;
      if negb (Vehicle.isActive v) then
        Orchestrator_log
          ("Refusing to re-schedule task to check on vehicle with ID: "
           +:+ toString (Vehicle.id v) +:+ "; is invalid not active")
      else
        now <- gets clock ;;
        let delta := (now - Vehicle.lastConnTime v)%Z in
        if (0 <=? delta)%Z && (delta <=? Vehicle.vehicleTimeoutLength v)%Z then
          modify (withOrchestrator (λ o,
            setVehicleStatusUpdater
              (addHandler (toString (Vehicle.id v))
                 (CbPingAgain vehicle) (CbPingAgain vehicle) delta
                 (vehicleStatusUpdater o)) o))
        else deactivateVehicle vehicle
  end.

Definition addVehicle (vehicle : nat) : JS unit :=
  v <- derefVehicle vehicle ;;
  modify (withOrchestrator (λ o,
    setVehicleStatusUpdater
      (addHandler (toString (Vehicle.id v))
         (CbPingAgain (Some vehicle)) (CbPingAgain (Some vehicle)) 1000
         (vehicleStatusUpdater o)) o)) ;;
  modify (withOrchestrator (λ o,
    setKnownVehicles (knownVehicles o ++ [vehicle]) o)).

Definition reset : JS unit :=
  modify (withOrchestrator (λ o,
    {| isRunning := false;
       currentMission := None;
       currentMissionIndex := 0;
       currentMissionVehicles := None;
       scheduledMissions := [];
       scheduledMissionsStatus := [];
       nextMissionRequiredData := JNull;
       knownVehicles := knownVehicles o;
       vehicleStatusUpdater := vehicleStatusUpdater o |})).

(** The callback [addMissions] hands to [listenForStatusUpdates].  It has
    captured [missionIndex]; [this.scheduledMissionsStatus] is read when the
    callback runs, so the write goes to the array the orchestrator holds at
    that moment.  Both paths do the same write and answer [false]. *)
Definition statusListener (missionIndex : nat) (status : JVal) : JS bool :=
  (if decide (status = "READY") then
     modify (withOrchestrator (λ o,
       setScheduledMissionsStatus
         (arrayWrite missionIndex status (scheduledMissionsStatus o)) o))
   else
     modify (withOrchestrator (λ o,
       setScheduledMissionsStatus
         (arrayWrite missionIndex status (scheduledMissionsStatus o)) o))) ;;
  ret false.

(** Modelled from the spec: the status stream of a mission, which is part
    of the absent [Mission] class.  By sections 3 and 4.4 a mission reports
    its status transitions to the callbacks registered through
    [listenForStatusUpdates]: they are called with the new status in the
    order of registration, and a callback that answers [false] stays
    registered. *)
Definition notifyStatus (r : nat) : JS unit :=
  m <- derefMission r ;;
  forOf (Mission.listeners m) (λ missionIndex,
    _ <- statusListener missionIndex (JStr (Mission.status m)) ;;
    ret tt).

(** Modelled from the spec: what follows a step of the mission at [r] that
    began in status [old].  A step that leaves the status as it was is no
    transition and is not reported. *)
Definition reportTransition (old : string) (r : nat) : JS unit :=
  m <- derefMission r ;;
  if decide (Mission.status m = old) then ret tt else notifyStatus r.

(** Modelled from the spec: the mission at [r] moves to [status] on its
    own account (its setup changes, it completes). *)
Definition reportStatus (r : nat) (status : string) : JS unit :=
  m <- derefMission r ;;
  modify (withMissions (alter (Mission.setStatus status) r)) ;;
  reportTransition (Mission.status m) r.

(** The body of the [for] loop of [addMissions]; a [return] inside it ends
    the loop. *)
Fixpoint addMissionsFrom (missions : list Entry) : JS unit :=
  match missions with
  | [] => ret tt
  | mission :: rest =>
      match mission with
      | ENull | EUndefined =>
          (* not an instance; the log line reads mission.constructor *)
          throw (TypeError "Cannot read property 'constructor' of undefined or null")
      | EBare =>
          (* not an instance; the log line reads mission.constructor.name *)
          throw (TypeError "Cannot read property 'name' of undefined or null")
      | EOther c =>
          Orchestrator_log
            ("In Class 'Orchestrator', method 'addMissions': Received an object constructed with: "
             +:+ c +:+ "; expected object of type 'Mission' or subclass. Aborting...") ;;
          reset
      | EMission r =>
          m <- derefMission r ;;
          if negb (Mission.setupComplete m) then
            Orchestrator_log
              ("In Class 'Orchestrator', method 'addMissions': The mission: "
               +:+ Mission.constructorName m
               +:+ " is expected to be completely set up prior to adding. Aborting...") ;;
            reset
          else
            missionIndex <- gets (λ w, length (scheduledMissions (orchestrator w))) ;;
            modify (withOrchestrator (λ o,
              setScheduled (scheduledMissions o ++ [r])
                           (scheduledMissionsStatus o ++ [JStr (Mission.status m)]) o)) ;;
            modify (withMissions (alter (Mission.listenForStatusUpdates missionIndex) r)) ;;
            addMissionsFrom rest
      end
  end.

Definition addMissions (missions : list Entry) : JS unit :=
  running <- gets (λ w, isRunning (orchestrator w)) ;;
  if running then
    Orchestrator_log
      "In Class 'Orchestrator', method 'addMissions':Cannot add missions when a mission is actively running"
  else addMissionsFrom missions.

Definition allMissionsAreReady : JS bool :=
  gets (λ w, fold_left (λ allAreReady (status : JVal),
                          allAreReady && bool_decide (status = "READY"))
               (scheduledMissionsStatus (orchestrator w)) true).

Definition currentMissionName : JS string :=
  c <- gets (λ w, currentMission (orchestrator w)) ;;
  match c with
  | None => throw (TypeError "Cannot read property 'name' of null")
  | Some r => m <- derefMission r ;; ret (Mission.name m)
  end.

Definition startMission (requiredData : JVal) : JS unit :=
  o <- gets orchestrator ;;
  match scheduledMissions o !! currentMissionIndex o with
  | None => throw (TypeError "Cannot read property 'status' of undefined")
  | Some r =>
      m <- derefMission r ;;
      if decide (Mission.status m = "READY") then
        modify (withOrchestrator (setIsRunning true)) ;;
        modify (withOrchestrator (setCurrentMission (Some r))) ;;
        modify (withMissions (alter (missionStart requiredData) r)) ;;
        reportTransition (Mission.status m) r ;;
        m' <- derefMission r ;;
        modify (withOrchestrator
                  (setCurrentMissionVehicles (Some (Mission.activeVehicles m'))))
      else
        modify (withOrchestrator (setIsRunning false)) ;;
        nm <- currentMissionName ;;
        Orchestrator_log nm
  end.

Definition endMission (nextRequired : JVal) : JS unit :=
  modify (withOrchestrator (setNextMissionRequiredData nextRequired)) ;;
  modify (withOrchestrator (λ o,
    setCurrentMissionIndex (currentMissionIndex o + 1) o)) ;;
  o <- gets orchestrator ;;
  if (length (scheduledMissions o) <? currentMissionIndex o)%nat
  then startMission nextRequired
  else reset.

Definition allocVehicle (v : Vehicle.t) : JS nat :=
  r <- gets (λ w, fresh (dom (vehicles w))) ;;
  modify (withVehicles (insert r v)) ;;
  ret r.

Definition processMessage (message : Message) : JS unit :=
  vehc <- getVehicleByID (getField message "sid") ;;
  msgStr <- callToUpperCase (getField message "type") ;;
  if decide (msgStr = "CONNECT") then
    (* vehc !== undefined && vehc.isActive : getVehicleByID answers a
       vehicle or null, never undefined, so isActive is always read *)
    active <-
      match vehc with
      | None => throw (TypeError "Cannot read property 'isActive' of null")
      | Some r => v <- derefVehicle r ;; ret (Vehicle.isActive v)
      end ;;
    if (active : bool) then
      Orchestrator_log
        ("In Class 'Orchestrator', method 'processMessage': Received a connection message for VID: "
         +:+ toString (getField message "sid")
         +:+ ", but a vehicle with the ID is already active")
    else
      modify (λ w, withOrchestrator
        (setKnownVehicles
           (filter (λ v, ¬ (Vehicle.id <$> vehicles w !! v
                            = Some (getField message "sid")))
                   (knownVehicles (orchestrator w)))) w) ;;
      now <- gets clock ;;
      newVehc <- allocVehicle
        (Vehicle.new (getField message "sid")
           (getField message "jobsAvailable") (JStr "WAITING")
           now vehicleTimeout) ;;
      modify (withOrchestrator (λ o,
        setKnownVehicles (knownVehicles o ++ [newVehc]) o)) ;;
      sendMessageTo (getField message "sid")
        (list_to_map [("type", JStr "connectionAck")])
  else
    match vehc with
    | None =>
        Orchestrator_log
          ("In Class 'Orchestrator', method 'processMessage': Received an update for VID: "
           +:+ toString (getField message "sid")
           +:+ ", but no vehicle is registered for the ID")
    | Some r =>
        v <- derefVehicle r ;;
        if negb (Vehicle.isActive v) then
          Orchestrator_log
            ("In Class 'Orchestrator', method 'processMessage': Received an update message for inactive vehicle with VID: "
             +:+ toString (getField message "sid") +:+ "; sending stop...") ;;
          sendMessageTo (Vehicle.id v) (list_to_map [("type", JStr "stop")])
        else if decide (msgStr = "UPDATE") then
          modify (withVehicles (alter (vehicleUpdate message) r))
        else if decide (msgStr = "POI" ∨ msgStr = "COMPLETE") then
          o <- gets orchestrator ;;
          match currentMissionVehicles o with
          | None => throw (TypeError "Cannot use 'in' operator to search in null")
          | Some keys =>
              if decide (toString (getField message "sid") ∈ keys) then
                match scheduledMissions o !! currentMissionIndex o with
                | None => throw (TypeError "Cannot read property 'missionUpdate' of undefined")
                | Some mr => modify (withMissions (alter (missionUpdate message) mr))
                end
              else ret tt
          end
        else ret tt
    end.

(** *** MessageHandler.js, continued: [receiveMessage] *)

Definition receiveMessage (msg : Message) : JS unit :=
  modify (withMessageHandler (λ h,
    setMessagesReceived (messagesReceived h ++ [getField msg "id"]) h)) ;;
  ack msg ;;
  sender <- getVehicleByID (getField msg "sid") ;;
  match sender with
  | None => throw (TypeError "Cannot set property 'lastConnTime' of null")
  | Some r =>
      now <- gets clock ;;
      modify (withVehicles (alter (Vehicle.setLastConnTime now) r))
  end ;;
  _ <- callToUpperCase (getField msg "type") ;;
  ret tt.

(** *** Running a closure held by an [UpdateHandler] *)

Definition runCallback (cb : Callback) : JS unit :=
  match cb with
  | CbPingAgain vehicle => pingAgain_f vehicle
  | CbRmMsg msg =>
      mID <- prop msg "id" ;;
      box <- gets (λ w, messageOutbox (messageHandler w)) ;;
      _ <- rmMsg mID box ;;
      ret tt
  | CbDeactivate msg =>
      tid <- prop msg "tid" ;;
      vehicle <- getVehicleByID tid ;;
      deactivateVehicle vehicle
  end.

(** Modelled from the spec: the expiry of a pending timer, which is part
    of the absent [UpdateHandler].  By section 4.2 the entry is removed and
    its [onExpired] closure runs once; an absent key has nothing to fire. *)
Definition expireVehicleTimer (key : string) : JS unit :=
  u <- gets (λ w, vehicleStatusUpdater (orchestrator w)) ;;
  match u !! key with
  | None => ret tt
  | Some h =>
      modify (withOrchestrator (λ o,
        setVehicleStatusUpdater (delete key (vehicleStatusUpdater o)) o)) ;;
      runCallback (onExpired h)
  end.

End Control.

(** ** What the claims speak about *)

(** The table of section 4.3, step 1, in the spec's words: the fields a
    message of each type needs beyond [id], [type] and the vehicle id. *)
Definition specTypeFields (t : string) : list string :=
  if decide (t = "UPDATE") then []
  else if decide (t = "ACK") then ["ackID"; "ackType"]
  else if decide (t = "CONNECT") then ["jobsAvailable"]
  else if decide (t = "POI") then ["lat"; "lon"]
  else if decide (t = "COMPLETE") then ["missionData"]
  else [].

Definition specRequiredFields (t : string) : list string :=
  ["id"; "type"; "vehicleID"] ++ specTypeFields t.

(** Entries of a batch handed to [addMissions]. *)
Definition isNullish (e : Entry) : bool :=
  match e with
  | ENull | EUndefined => true
  | _ => false
  end.

(** The values whose [constructor.name] can be read. *)
Definition hasConstructor (e : Entry) : bool :=
  match e with
  | EOther _ | EMission _ => true
  | ENull | EUndefined | EBare => false
  end.

Definition onHeap (ms : gmap nat Mission.t) (e : Entry) : bool :=
  match e with
  | EMission r => bool_decide (is_Some (ms !! r))
  | _ => true
  end.

(** A Mission instance whose setup is complete. *)
Definition setUp (ms : gmap nat Mission.t) (e : Entry) : bool :=
  match e with
  | EMission r =>
      match ms !! r with
      | Some m => Mission.setupComplete m
      | None => false
      end
  | _ => false
  end.

(** The state after [reset()]. *)
Definition isReset (o : Orchestrator) : Prop :=
  scheduledMissions o = [] ∧ scheduledMissionsStatus o = [] ∧
  isRunning o = false ∧ currentMission o = None ∧
  currentMissionIndex o = 0%nat ∧ currentMissionVehicles o = None.

(** Status table and schedule run in parallel. *)
Definition parallel (w : World) : Prop :=
  length (scheduledMissions (orchestrator w))
    = length (scheduledMissionsStatus (orchestrator w)) ∧
  ∀ (i r : nat), scheduledMissions (orchestrator w) !! i = Some r →
    ∃ m, missions w !! r = Some m ∧
         scheduledMissionsStatus (orchestrator w) !! i
         = Some (JStr (Mission.status m)).

(** The registry holds at most one record per id. *)
Definition singleHolder (w : World) : Prop :=
  NoDup ((λ r, Vehicle.id <$> vehicles w !! r)
           <$> knownVehicles (orchestrator w)).

(** The world after one pass of the loop of [addMissions] has accepted the
    mission [m] at reference [r]. *)
Definition accepted (r : nat) (m : Mission.t) (w : World) : World :=
  withMissions
    (alter (Mission.listenForStatusUpdates
              (length (scheduledMissions (orchestrator w)))) r)
    (withOrchestrator
       (λ o, setScheduled (scheduledMissions o ++ [r])
                          (scheduledMissionsStatus o ++ [JStr (Mission.status m)]) o)
       w).

(** What [deactivateVehicle] makes of a vehicle. *)
Definition deactivated (v : Vehicle.t) : Vehicle.t :=
  Vehicle.setAvailable false (Vehicle.setActive false v).

(** Every reference in the registry has its object. *)
Definition registryOnHeap (w : World) : Prop :=
  ∀ r, r ∈ knownVehicles (orchestrator w) → is_Some (vehicles w !! r).

(** [keeps R m]: whatever [m] does, and whether or not it throws, the world
    it leaves is [R]-related to the world it started from. *)
Definition keeps {A} (R : relation World) (m : JS A) : Prop :=
  ∀ w, R w (snd (m w)).

(** The outbox only loses entries. *)
Definition outboxShrinks : relation World :=
  λ w w', messageOutbox (messageHandler w') ⊆ messageOutbox (messageHandler w).

(** ** Concrete inputs *)

(** The message of section 8, property 8. *)
Definition connectV1 : Message :=
  list_to_map [("id", JNum 1); ("sid", JStr "V1"); ("type", JStr "CONNECT");
               ("jobsAvailable", JNum 2)].

Definition stopMsg : Message := list_to_map [("type", JStr "stop")].

Definition ackFromV1 : Message :=
  list_to_map [("id", JNum 7); ("sid", JStr "V1"); ("type", JStr "ACK");
               ("ackID", JUndefined); ("ackType", JStr "stop")].

Definition vehicleV1 : Vehicle.t :=
  Vehicle.new (JStr "V1") (JNum 2) (JStr "WAITING") 1000 30000.

(** A fresh pair of singletons. *)
Definition emptyWorld : World := newWorld ∅ ∅ 1000.

(** One active vehicle [V1] in the registry. *)
Definition fleetV1 : World :=
  withOrchestrator (setKnownVehicles [0%nat])
    (newWorld {[ 0%nat := vehicleV1 ]} ∅ 1000).

(** Two vehicle objects with the id [V1], before either is registered. *)
Definition pairV1 : World :=
  newWorld {[ 0%nat := vehicleV1; 1%nat := vehicleV1 ]} ∅ 1000.

(** The first is registered and deactivated, then the second is registered:
    the registry holds a stale [V1] in front of an active [V1]. *)
Definition staleThenActiveV1 : World :=
  snd (addVehicle 1
         (snd (deactivateVehicle (Some 0%nat) (snd (addVehicle 0 pairV1))))).

(** Both are registered, one after the other, and both are active. *)
Definition twoActiveV1 : World :=
  snd (addVehicle 1 (snd (addVehicle 0 pairV1))).

Definition readyMission (nm : string) : Mission.t :=
  Mission.mk "ISRMission" nm "READY" true ["V1"] [].

Definition notReadyMission (nm : string) : Mission.t :=
  Mission.mk "ISRMission" nm "NOT_READY" false ["V1"] [].

(** Two set-up missions, not yet scheduled. *)
Definition twoMissions : World :=
  newWorld ∅ {[ 0%nat := readyMission "M0"; 1%nat := readyMission "M1" ]} 1000.

(** The batch of section 8, property 5: [A] set up, [B] not. *)
Definition missionsAB : World :=
  newWorld ∅ {[ 0%nat := readyMission "A"; 1%nat := notReadyMission "B" ]} 1000.

(** Stand-ins for the absent methods where a run needs them. *)
Definition keepVehicle (_ : Message) (v : Vehicle.t) : Vehicle.t := v.
Definition keepMission (_ : Message) (m : Mission.t) : Mission.t := m.
Definition enterRunning (_ : JVal) (m : Mission.t) : Mission.t :=
  Mission.mk (Mission.constructorName m) (Mission.name m) "RUNNING"
    (Mission.setupComplete m) (Mission.activeVehicles m) (Mission.listeners m).

(** [M0] and [M1] scheduled and [M0] started with [d0]. *)
Definition runningM0 (missionStart : JVal → Mission.t → Mission.t) (d0 : JVal) : World :=
  snd (startMission missionStart d0
         (snd (addMissions [EMission 0; EMission 1] twoMissions))).

(** ** Further definitions *)

(** The mission references of a batch, in order. *)
Definition entryRefs (batch : list Entry) : list nat :=
  omap (λ e, match e with EMission r => Some r | _ => None end) batch.

(** The statuses the missions at [refs] have on the heap [ms]. *)
Definition statusesOf (ms : gmap nat Mission.t) (refs : list nat) : list JVal :=
  omap (λ r, (λ m, JStr (Mission.status m)) <$> ms !! r) refs.

(** The status table after a mission has reported [status] to the
    listeners for the positions [listeners], one after the other. *)
Definition reported (status : string) (listeners : list nat)
    (table : list JVal) : list JVal :=
  fold_left (λ a i, arrayWrite i (JStr status) a) listeners table.

(** The status table after the mission, now [m], has made a step that began
    in status [old]. *)
Definition transitionTable (old : string) (m : Mission.t)
    (table : list JVal) : list JVal :=
  if decide (Mission.status m = old) then table
  else reported (Mission.status m) (Mission.listeners m) table.

(** The world after the loop of [addMissions] has accepted the missions at
    [refs] one after the other. *)
Fixpoint acceptAll (refs : list nat) (w : World) : World :=
  match refs with
  | [] => w
  | r :: rest =>
      match missions w !! r with
      | Some m => acceptAll rest (accepted r m w)
      | None => w
      end
  end.

(** ** The singletons' static side *)

(** The static properties [instance] and [singletonUnlock] of the two
    classes; [None] is [undefined].  An instance slot holds the object as
    its constructor left it. *)
Record Statics : Type := mkStatics {
  MessageHandler_instance : option MessageHandler;
  MessageHandler_singletonUnlock : option bool;
  Orchestrator_instance : option Orchestrator;
  Orchestrator_singletonUnlock : option bool
}.

(** Before either class has been touched. *)
Definition noStatics : Statics := mkStatics None None None None.

(** The outcome of a [new]: the object, or the [Error] the constructor
    throws. *)
Inductive Built (A : Type) : Type :=
| Made (a : A)
| Refused (message : string).
Arguments Made {A} a.
Arguments Refused {A} message.

(** [new MessageHandler()] at clock [now]. *)
Definition MessageHandler_new (now : Z) (s : Statics) : Built MessageHandler :=
  if decide (MessageHandler_singletonUnlock s = Some true)
  then Made (newMessageHandler now)
  else Refused "MessageHandler must be acquired with the getInstance() method!".

Definition MessageHandler_getInstance (now : Z) (s : Statics)
    : Built MessageHandler * Statics :=
  match MessageHandler_instance s with
  | Some h => (Made h, s)
  | None =>
      let s1 := mkStatics (MessageHandler_instance s) (Some true)
                  (Orchestrator_instance s) (Orchestrator_singletonUnlock s) in
      match MessageHandler_new now s1 with
      | Made h =>
          (Made h,
           mkStatics (Some h) (Some false)
             (Orchestrator_instance s1) (Orchestrator_singletonUnlock s1))
      | Refused m => (Refused m, s1)
      end
  end.

(** [new Orchestrator()]: past its guard the constructor fetches the
    message handler, which creates that singleton when it is not there
    yet. *)
Definition Orchestrator_new (now : Z) (s : Statics) : Built Orchestrator * Statics :=
  if decide (Orchestrator_singletonUnlock s = Some true) then
    match MessageHandler_getInstance now s with
    | (Made _, s') => (Made newOrchestrator, s')
    | (Refused m, s') => (Refused m, s')
    end
  else (Refused "Orchestrator must be acquired with the getInstance() method!", s).

Definition Orchestrator_getInstance (now : Z) (s : Statics)
    : Built Orchestrator * Statics :=
  match Orchestrator_instance s with
  | Some o => (Made o, s)
  | None =>
      let s1 := mkStatics (MessageHandler_instance s) (MessageHandler_singletonUnlock s)
                  (Orchestrator_instance s) (Some true) in
      match Orchestrator_new now s1 with
      | (Made o, s2) =>
          (Made o,
           mkStatics (MessageHandler_instance s2) (MessageHandler_singletonUnlock s2)
             (Some o) (Some false))
      | (Refused m, s2) => (Refused m, s2)
      end
  end.

(** The static states a program reaches from the start by calling the two
    [getInstance] accessors and by attempting [new] directly. *)
Inductive staticsReachable : Statics → Prop :=
| sr_start : staticsReachable noStatics
| sr_MessageHandler_getInstance now s :
    staticsReachable s → staticsReachable (snd (MessageHandler_getInstance now s))
| sr_Orchestrator_getInstance now s :
    staticsReachable s → staticsReachable (snd (Orchestrator_getInstance now s))
| sr_Orchestrator_new now s :
    staticsReachable s → staticsReachable (snd (Orchestrator_new now s)).

(** More concrete inputs. *)
Definition updateV1 : Message :=
  list_to_map [("id", JNum 2); ("sid", JStr "V1"); ("type", JStr "update")].

Definition poiV1 : Message :=
  list_to_map [("id", JNum 3); ("sid", JStr "V1"); ("type", JStr "POI");
               ("lat", JNum 1); ("lon", JNum 2)].

Definition untypedV1 : Message :=
  list_to_map [("id", JNum 4); ("sid", JStr "V1")].

(** ** Proof support *)

Section Keeps.
Context (R : relation World) `{!PreOrder R}.

Lemma keeps_ret {A} (a : A) : keeps R (ret a).
Proof. intros w. simpl. reflexivity. Qed.

Lemma keeps_throw {A} (e : JSError) : keeps R (@throw A e).
Proof. intros w. simpl. reflexivity. Qed.

Lemma keeps_gets {A} (f : World → A) : keeps R (gets f).
Proof. intros w. simpl. reflexivity. Qed.

Lemma keeps_bind {A B} (m : JS A) (k : A → JS B) :
  keeps R m → (∀ a, keeps R (k a)) → keeps R (bind m k).
Proof.
  intros Hm Hk w. unfold bind. specialize (Hm w).
  destruct (m w) as [[a|e] w']; simpl in *.
  - etrans; [exact Hm|]. apply Hk.
  - exact Hm.
Qed.

Lemma keeps_forOf {A} (l : list A) (body : A → JS unit) :
  (∀ x, keeps R (body x)) → keeps R (forOf l body).
Proof.
  intros Hb. induction l as [|x l IH]; simpl.
  - apply keeps_ret.
  - apply keeps_bind; [apply Hb|]. intros _. exact IH.
Qed.

Lemma keeps_modify (f : World → World) :
  (∀ w, R w (f w)) → keeps R (modify f).
Proof. intros Hf w. apply Hf. Qed.

Lemma keeps_callToUpperCase (v : JVal) : keeps R (callToUpperCase v).
Proof. destruct v; first [apply keeps_ret | apply keeps_throw]. Qed.

Lemma keeps_prop (a : Arg) (f : string) : keeps R (prop a f).
Proof. destruct a as [[]|]; first [apply keeps_ret | apply keeps_throw]. Qed.

Lemma keeps_derefVehicle (r : nat) : keeps R (derefVehicle r).
Proof. intros w. unfold derefVehicle. destruct (vehicles w !! r); reflexivity. Qed.

Lemma keeps_derefMission (r : nat) : keeps R (derefMission r).
Proof. intros w. unfold derefMission. destruct (missions w !! r); reflexivity. Qed.
End Keeps.

Ltac keeps_class := try (solve [apply _]).

Ltac keeps_step :=
  first
    [ apply keeps_bind; keeps_class; [|intros ?]
    | apply keeps_forOf; keeps_class; intros ?
    | solve [apply keeps_ret; keeps_class]
    | solve [apply keeps_throw; keeps_class]
    | solve [apply keeps_gets; keeps_class]
    | solve [apply keeps_callToUpperCase; keeps_class]
    | solve [apply keeps_prop; keeps_class]
    | solve [apply keeps_derefVehicle; keeps_class]
    | solve [apply keeps_derefMission; keeps_class]
    | match goal with |- keeps _ (if ?c then _ else _) => destruct c end
    | match goal with |- keeps _ (match ?c with _ => _ end) => destruct c end ].

(** *** [rmMsg] and the outbox *)

#[local] Instance outboxShrinks_preorder : PreOrder outboxShrinks.
Proof.
  split.
  - intros w. unfold outboxShrinks. done.
  - intros w1 w2 w3 H12 H23. unfold outboxShrinks in *. set_solver.
Qed.

Lemma rmMsg_eq (mID : JVal) (box : list Message) (w : World) :
  rmMsg mID box w
  = (Normal (filter (λ obj, ¬ (getField obj "id" = mID)) box), w).
Proof. reflexivity. Qed.

Lemma runCallback_CbRmMsg_world (msg : Arg) (w : World) :
  snd (runCallback (CbRmMsg msg) w) = w.
Proof. destruct msg as [[| | | |]|o]; reflexivity. Qed.

Lemma asyncSendMessage_outbox (msg : Arg) : keeps outboxShrinks (asyncSendMessage msg).
Proof.
  unfold asyncSendMessage. repeat keeps_step.
  apply keeps_modify. intros w. unfold outboxShrinks. simpl. done.
Qed.

(** [sendMessageTo] never puts anything into the outbox. *)
Lemma sendMessageTo_outbox (vehicle : JVal) (message : Message) :
  keeps outboxShrinks (sendMessageTo vehicle message).
Proof.
  unfold sendMessageTo, messageRecipients.
  apply keeps_bind; keeps_class.
  { destruct (decide _); [|keeps_step].
    intros w. unfold outboxShrinks. simpl.
    intros x Hx. apply list_elem_of_filter in Hx. tauto. }
  intros _. repeat first [apply asyncSendMessage_outbox | keeps_step].
  apply keeps_modify. intros w. unfold outboxShrinks. simpl. done.
Qed.

(** *** The registry *)

Lemma findVehicle_Some heap vID known r :
  findVehicle heap vID known = Some r →
  r ∈ known ∧ Vehicle.id <$> heap !! r = Some vID.
Proof.
  induction known as [|x known IH]; simpl; [discriminate|].
  destruct (decide _) as [Hx|Hx].
  - intros [= <-]. split; [apply list_elem_of_here|exact Hx].
  - intros H. destruct (IH H) as [Hin Hid]. split; [by apply list_elem_of_further|exact Hid].
Qed.

(** [findVehicle] only looks at the ids on the heap. *)
Lemma findVehicle_ext heap heap' vID known :
  (∀ r, r ∈ known → Vehicle.id <$> heap' !! r = Vehicle.id <$> heap !! r) →
  findVehicle heap' vID known = findVehicle heap vID known.
Proof.
  induction known as [|x known IH]; intros H; simpl; [reflexivity|].
  rewrite (H x) by apply list_elem_of_here.
  destruct (decide _); [reflexivity|].
  apply IH. intros r Hr. apply H. by apply list_elem_of_further.
Qed.

(** X25.  Under one record per id, any known vehicle with the id is the
    vehicle [getVehicleByID] answers for it. *)
Lemma findVehicle_singleHolder (w : World) (vID : JVal) (r : nat) :
  singleHolder w →
  r ∈ knownVehicles (orchestrator w) →
  Vehicle.id <$> vehicles w !! r = Some vID →
  findVehicle (vehicles w) vID (knownVehicles (orchestrator w)) = Some r.
Proof.
  unfold singleHolder.
  generalize (vehicles w) as heap, (knownVehicles (orchestrator w)) as known.
  intros heap known.
  induction known as [|x known IH]; simpl; intros Hnd Hin Hid.
  - by apply not_elem_of_nil in Hin.
  - apply NoDup_cons in Hnd as [Hx Hnd].
    destruct (decide _) as [Hxid|Hxid].
    + apply elem_of_cons in Hin as [->|Hin]; [reflexivity|].
      exfalso. apply Hx. rewrite Hxid, <- Hid.
      apply (list_elem_of_fmap_2 (λ r, Vehicle.id <$> heap !! r)). exact Hin.
    + apply elem_of_cons in Hin as [->|Hin]; [congruence|].
      by apply IH.
Qed.

Lemma lookup_alter_id (f : Vehicle.t → Vehicle.t) (heap : gmap nat Vehicle.t) (r x : nat) :
  (∀ v, Vehicle.id (f v) = Vehicle.id v) →
  Vehicle.id <$> alter f r heap !! x = Vehicle.id <$> heap !! x.
Proof.
  intros Hf. destruct (decide (r = x)) as [->|Hne].
  - rewrite lookup_alter_eq. destruct (heap !! x); simpl; [by rewrite Hf|done].
  - by rewrite lookup_alter_ne.
Qed.

Lemma alter_twice {A} (f g : A → A) (m : gmap nat A) (r : nat) :
  alter f r (alter g r m) = alter (f ∘ g) r m.
Proof.
  apply map_eq. intros k. destruct (decide (r = k)) as [->|Hne].
  - rewrite !lookup_alter_eq. by destruct (m !! k).
  - by rewrite !lookup_alter_ne.
Qed.

Lemma deactivateVehicle_eq (r : nat) (w : World) :
  deactivateVehicle (Some r) w
  = (Normal tt, withVehicles (alter deactivated r) w).
Proof.
  unfold deactivateVehicle, bind, modify, withVehicles. simpl.
  do 2 f_equal. unfold deactivated. apply alter_twice.
Qed.

(** *** The status stream *)

Lemma withOrchestrator_same (w : World) :
  withOrchestrator
    (λ o, setScheduledMissionsStatus (scheduledMissionsStatus o) o) w = w.
Proof. destruct w as [[] ? ? ? ? ?]. reflexivity. Qed.

Lemma statusListener_eq (i : nat) (status : JVal) (w : World) :
  statusListener i status w
  = (Normal false,
     withOrchestrator (λ o,
       setScheduledMissionsStatus
         (arrayWrite i status (scheduledMissionsStatus o)) o) w).
Proof. unfold statusListener. destruct (decide _); reflexivity. Qed.

Lemma forOf_statusListener (status : string) (l : list nat) (w : World) :
  forOf l (λ i, _ <- statusListener i (JStr status) ;; ret tt) w
  = (Normal tt,
     withOrchestrator (λ o,
       setScheduledMissionsStatus
         (reported status l (scheduledMissionsStatus o)) o) w).
Proof.
  revert w. induction l as [|i l IH]; intros w.
  - cbn [forOf reported fold_left]. by rewrite withOrchestrator_same.
  - cbn [forOf]. unfold bind at 1. unfold bind at 1.
    rewrite statusListener_eq. cbn [ret]. rewrite IH. reflexivity.
Qed.

Lemma notifyStatus_eq (r : nat) (m : Mission.t) (w : World) :
  missions w !! r = Some m →
  notifyStatus r w
  = (Normal tt,
     withOrchestrator (λ o,
       setScheduledMissionsStatus
         (reported (Mission.status m) (Mission.listeners m)
            (scheduledMissionsStatus o)) o) w).
Proof.
  intros Hm. unfold notifyStatus, bind, derefMission. rewrite Hm.
  apply forOf_statusListener.
Qed.

Lemma reportTransition_eq (old : string) (r : nat) (m : Mission.t) (w : World) :
  missions w !! r = Some m →
  reportTransition old r w
  = (Normal tt,
     withOrchestrator (λ o,
       setScheduledMissionsStatus
         (transitionTable old m (scheduledMissionsStatus o)) o) w).
Proof.
  intros Hm. unfold reportTransition, bind, derefMission, transitionTable.
  rewrite Hm. destruct (decide _).
  - by rewrite withOrchestrator_same.
  - by apply notifyStatus_eq.
Qed.

(** What [startMission] does with a mission that is READY. *)
Lemma startMission_ready_eq
    (ms : JVal → Mission.t → Mission.t) (d : JVal) (w : World)
    (r : nat) (m : Mission.t) :
  scheduledMissions (orchestrator w) !! currentMissionIndex (orchestrator w) = Some r →
  missions w !! r = Some m →
  Mission.status m = "READY" →
  startMission ms d w
  = (Normal tt,
     withOrchestrator
       (setCurrentMissionVehicles (Some (Mission.activeVehicles (ms d m))))
       (withOrchestrator (λ o,
          setScheduledMissionsStatus
            (transitionTable "READY" (ms d m) (scheduledMissionsStatus o)) o)
          (withMissions (alter (ms d) r)
             (withOrchestrator (setCurrentMission (Some r))
                (withOrchestrator (setIsRunning true) w))))).
Proof.
  intros Hidx Hm Hst.
  unfold startMission. unfold bind at 1. unfold gets. cbn [fst snd].
  rewrite Hidx. unfold bind at 1. unfold derefMission at 1. rewrite Hm.
  rewrite decide_True by exact Hst.
  unfold bind at 1. unfold modify at 1.
  unfold bind at 1. unfold modify at 1.
  unfold bind at 1. unfold modify at 1.
  unfold bind at 1.
  rewrite (reportTransition_eq _ r (ms d m))
    by (cbn [missions withMissions withOrchestrator]; by rewrite lookup_alter_eq, Hm).
  rewrite Hst.
  unfold bind, modify, derefMission.
  cbn [missions withMissions withOrchestrator fst snd].
  rewrite lookup_alter_eq, Hm. reflexivity.
Qed.

(** ** The claims *)

(** C9. [rmMsg(mID, box)] answers the list made of the entries of [box]
    whose [id] is not [mID], in their order, and writes nothing: the world,
    and with it the array the caller passed, is as before.  The renewal
    closure that [asyncSendMessage] registers calls [rmMsg] on
    [this.messageOutbox] and drops the answer, so running it leaves the
    world, [messageOutbox] included, exactly as it was. *)
Theorem rmMsg_non_mutating (mID : JVal) (box : list Message) (w : World) :
  ∃ box' : list Message,
    rmMsg mID box w = (Normal box', w) ∧
    box' = filter (λ obj, ¬ (getField obj "id" = mID)) box ∧
    (∀ obj, obj ∈ box' ↔ obj ∈ box ∧ getField obj "id" ≠ mID) ∧
    box' `sublist_of` box ∧
    (∀ o : Message,
       updateHandler (messageHandler (snd (asyncSendMessage (AObj o) w)))
         !! eventString (getField o "tid") (getField o "mID") (getField o "type")
       = Some (mkHandler (CbRmMsg (AObj o)) (CbDeactivate (AObj o)) 3000)) ∧
    (∀ msg : Arg,
       let w' := snd (runCallback (CbRmMsg msg) w) in
       w' = w ∧ messageOutbox (messageHandler w') = messageOutbox (messageHandler w)).
Proof.
  eexists. split; [apply rmMsg_eq|]. split; [reflexivity|].
  split; [|split; [|split]].
  - intros obj. rewrite list_elem_of_filter. tauto.
  - apply sublist_filter.
  - intros o. simpl. unfold addHandler. apply lookup_insert_eq.
  - intros msg. cbv zeta. rewrite runCallback_CbRmMsg_world. done.
Qed.

(** Every delivery is recorded, whatever [messagesReceived] holds, and
    [receiveMessage] then stops in [ack]. *)
Lemma receiveMessage_eq (msg : Message) (w : World) :
  receiveMessage msg w
  = (Throw (TypeError "(intermediate value).now is not a function"),
     withMessageHandler
       (λ h, setMessagesReceived (messagesReceived h ++ [getField msg "id"]) h) w).
Proof. reflexivity. Qed.

(** C1 (code defect).  [receiveMessage] never looks into
    [messagesReceived]: delivered a second time, [connectV1] is recorded a
    second time, so the second delivery does change the state.  Neither
    delivery gets as far as sending an ACK, because [ack] stops in
    [nextMsgID]. *)
Theorem receiveMessage_redelivery_recorded_twice :
  let w1 := snd (receiveMessage connectV1 emptyWorld) in
  let w2 := snd (receiveMessage connectV1 w1) in
  getField connectV1 "id" ∈ messagesReceived (messageHandler w1) ∧
  messagesReceived (messageHandler w1) = [JNum 1] ∧
  messagesReceived (messageHandler w2) = [JNum 1; JNum 1] ∧
  w2 ≠ w1 ∧
  fst (receiveMessage connectV1 w1)
  = Throw (TypeError "(intermediate value).now is not a function") ∧
  updateHandler (messageHandler w2) = ∅.
Proof.
  cbv zeta. rewrite !receiveMessage_eq.
  split; [vm_compute; apply list_elem_of_here|].
  split; [reflexivity|]. split; [reflexivity|].
  split; [|split; reflexivity].
  intros H. apply (f_equal (λ w, length (messagesReceived (messageHandler w)))) in H.
  vm_compute in H. discriminate.
Qed.

(** With no record for the sender, a CONNECT stops at [vehc.isActive]. *)
Lemma processMessage_connect_unknown timeout vu mu (message : Message) (t : string) (w : World) :
  findVehicle (vehicles w) (getField message "sid") (knownVehicles (orchestrator w)) = None →
  getField message "type" = JStr t → toUpperCase t = "CONNECT" →
  processMessage timeout vu mu message w
  = (Throw (TypeError "Cannot read property 'isActive' of null"), w).
Proof.
  intros Hf Ht Hu. unfold processMessage, getVehicleByID, bind, gets.
  rewrite Hf, Ht. simpl. rewrite Hu. reflexivity.
Qed.

(** C3 (code defect).  On the empty registry [getVehicleByID] answers
    [null]; the guard of the CONNECT branch only excludes [undefined] and
    goes on to read [vehc.isActive], so [processMessage] throws a
    [TypeError].  The registry stays empty and nothing is sent. *)
Theorem processMessage_connect_on_empty_registry_throws
    (timeout : Z) (vehicleUpdate : Message → Vehicle.t → Vehicle.t)
    (missionUpdate : Message → Mission.t → Mission.t) :
  knownVehicles (orchestrator emptyWorld) = [] ∧
  processMessage timeout vehicleUpdate missionUpdate connectV1 emptyWorld
  = (Throw (TypeError "Cannot read property 'isActive' of null"), emptyWorld).
Proof.
  split; [reflexivity|].
  apply processMessage_connect_unknown with (t := "CONNECT"); reflexivity.
Qed.

(** C5 (code defect).  Sending [stopMsg] to the active vehicle [V1]: the
    message is given no id ([undefined] is what gets recorded as sent), the
    outbox stays empty, and the one timer that is armed is keyed by the
    recipient string, not by the message.  The ACK that comes back is
    recorded and then [receiveMessage] throws; the timer is still armed. *)
Theorem sendMessageTo_tracks_nothing :
  let sent := sendMessageTo (JStr "V1") stopMsg fleetV1 in
  let w1 := snd sent in
  let w2 := snd (receiveMessage ackFromV1 w1) in
  findVehicle (vehicles fleetV1) (JStr "V1") (knownVehicles (orchestrator fleetV1)) = Some 0%nat ∧
  Vehicle.isActive <$> vehicles fleetV1 !! 0%nat = Some true ∧
  fst sent = Normal tt ∧
  messageOutbox (messageHandler w1) = [] ∧
  messagesSent (messageHandler w1) = [JUndefined] ∧
  updateHandler (messageHandler w1)
  = {[ "undefined-undefined-undefined"
       := mkHandler (CbRmMsg (APrim (JStr "GCS"))) (CbDeactivate (APrim (JStr "GCS"))) 3000 ]} ∧
  fst (receiveMessage ackFromV1 w1)
  = Throw (TypeError "(intermediate value).now is not a function") ∧
  updateHandler (messageHandler w2) = updateHandler (messageHandler w1).
Proof.
  cbv zeta. rewrite !receiveMessage_eq.
  repeat split; vm_compute; reflexivity.
Qed.

(** Whenever the schedule still has a mission at the next index,
    [endMission] takes the [reset] branch. *)
Lemma endMission_next_present_resets ms (d : JVal) (w : World) :
  (currentMissionIndex (orchestrator w) + 1
     < length (scheduledMissions (orchestrator w)))%nat →
  fst (endMission ms d w) = Normal tt ∧
  isReset (orchestrator (snd (endMission ms d w))) ∧
  missions (snd (endMission ms d w)) = missions w.
Proof.
  intros Hlt. unfold endMission, bind, modify, gets. simpl.
  destruct (Nat.ltb_spec (length (scheduledMissions (orchestrator w)))
              (currentMissionIndex (orchestrator w) + 1)) as [H|H]; [lia|].
  simpl. repeat split.
Qed.

(** C2 (code defect).  With [M0] and [M1] scheduled and [M0] running,
    [endMission(d1)] compares [scheduledMissions.length < currentMissionIndex]
    the wrong way round: it resets the orchestrator although [M1] sits at
    the new index, and [M1] is never started. *)
Theorem endMission_drops_the_next_mission
    (missionStart : JVal → Mission.t → Mission.t) (d0 d1 : JVal) :
  let w := runningM0 missionStart d0 in
  let w' := snd (endMission missionStart d1 w) in
  scheduledMissions (orchestrator w) = [0; 1]%nat ∧
  currentMissionIndex (orchestrator w) = 0%nat ∧
  currentMission (orchestrator w) = Some 0%nat ∧
  isRunning (orchestrator w) = true ∧
  fst (endMission missionStart d1 w) = Normal tt ∧
  isReset (orchestrator w') ∧
  missions w' !! 1%nat = missions w !! 1%nat ∧
  missions w' !! 1%nat
  = Some (Mission.listenForStatusUpdates 1 (readyMission "M1")).
Proof.
  cbv zeta.
  assert (Hw : runningM0 missionStart d0
    = snd (startMission missionStart d0
             (snd (addMissions [EMission 0; EMission 1] twoMissions))))
    by reflexivity.
  rewrite (startMission_ready_eq missionStart d0 _ 0
             (Mission.listenForStatusUpdates 0 (readyMission "M0")))
    in Hw by reflexivity.
  cbn [snd] in Hw.
  assert (Hs : scheduledMissions (orchestrator (runningM0 missionStart d0)) = [0; 1]%nat)
    by (rewrite Hw; reflexivity).
  assert (Hi : currentMissionIndex (orchestrator (runningM0 missionStart d0)) = 0%nat)
    by (rewrite Hw; reflexivity).
  assert (H1 : missions (runningM0 missionStart d0) !! 1%nat
               = Some (Mission.listenForStatusUpdates 1 (readyMission "M1")))
    by (rewrite Hw; reflexivity).
  assert (Hc : currentMission (orchestrator (runningM0 missionStart d0)) = Some 0%nat)
    by (rewrite Hw; reflexivity).
  assert (Hr0 : isRunning (orchestrator (runningM0 missionStart d0)) = true)
    by (rewrite Hw; reflexivity).
  destruct (endMission_next_present_resets missionStart d1 (runningM0 missionStart d0))
    as (Hn & Hr & Hm).
  { rewrite Hs, Hi. simpl. lia. }
  rewrite Hm. split; [exact Hs|]. split; [exact Hi|].
  split; [exact Hc|]. split; [exact Hr0|]. split; [exact Hn|].
  split; [exact Hr|]. split; [reflexivity|exact H1].
Qed.

(** A CONNECT for an id whose record is active is logged, nothing more. *)
Lemma processMessage_connect_active
    (timeout : Z) (vu : Message → Vehicle.t → Vehicle.t)
    (mu : Message → Mission.t → Mission.t)
    (message : Message) (t : string) (w : World) (r : nat) (v : Vehicle.t) :
  findVehicle (vehicles w) (getField message "sid")
    (knownVehicles (orchestrator w)) = Some r →
  vehicles w !! r = Some v →
  Vehicle.isActive v = true →
  getField message "type" = JStr t →
  toUpperCase t = "CONNECT" →
  ∃ line, processMessage timeout vu mu message w
          = (Normal tt, withConsole (λ c, c ++ [line]) w).
Proof.
  intros Hf Hv Ha Ht Hu.
  unfold processMessage, getVehicleByID, bind, gets.
  rewrite Hf, Ht. simpl. rewrite Hu. simpl.
  unfold derefVehicle. rewrite Hv. simpl. rewrite Ha. simpl.
  eexists. reflexivity.
Qed.

(** X26.  When the record the registry answers for the sender's id is an
    active vehicle, a CONNECT from that id is logged and nothing else
    happens: [processMessage] returns normally, and the registry, the rest
    of the orchestrator, the message handler and both heaps are as they
    were; the console has one more line. *)
Theorem processMessage_connect_conflict
    (timeout : Z) (vehicleUpdate : Message → Vehicle.t → Vehicle.t)
    (missionUpdate : Message → Mission.t → Mission.t)
    (message : Message) (t : string) (w : World) (r : nat) (v : Vehicle.t) :
  findVehicle (vehicles w) (getField message "sid")
    (knownVehicles (orchestrator w)) = Some r →
  vehicles w !! r = Some v →
  Vehicle.isActive v = true →
  getField message "type" = JStr t →
  toUpperCase t = "CONNECT" →
  let result := processMessage timeout vehicleUpdate missionUpdate message w in
  let w' := snd result in
  fst result = Normal tt ∧
  knownVehicles (orchestrator w') = knownVehicles (orchestrator w) ∧
  orchestrator w' = orchestrator w ∧
  messageHandler w' = messageHandler w ∧
  vehicles w' = vehicles w ∧
  missions w' = missions w ∧
  ∃ line, console w' = console w ++ [line].
Proof.
  intros Hf Hv Ha Ht Hu. cbv zeta.
  destruct (processMessage_connect_active timeout vehicleUpdate missionUpdate
              message t w r v Hf Hv Ha Ht Hu) as [line ->].
  repeat split. exists line. reflexivity.
Qed.

(** A CONNECT for an id whose record is inactive: the records with that id
    leave the registry and a new active vehicle is appended. *)
Lemma processMessage_connect_stale
    (timeout : Z) (vu : Message → Vehicle.t → Vehicle.t)
    (mu : Message → Mission.t → Mission.t)
    (message : Message) (t : string) (w : World) (r : nat) (v : Vehicle.t) :
  findVehicle (vehicles w) (getField message "sid")
    (knownVehicles (orchestrator w)) = Some r →
  vehicles w !! r = Some v →
  Vehicle.isActive v = false →
  getField message "type" = JStr t →
  toUpperCase t = "CONNECT" →
  let result := processMessage timeout vu mu message w in
  let r' := fresh (dom (vehicles w)) in
  fst result = Normal tt ∧
  knownVehicles (orchestrator (snd result))
  = filter (λ x, ¬ (Vehicle.id <$> vehicles w !! x = Some (getField message "sid")))
      (knownVehicles (orchestrator w)) ++ [r'] ∧
  vehicles (snd result)
  = <[r' := Vehicle.new (getField message "sid") (getField message "jobsAvailable")
              (JStr "WAITING") (clock w) timeout]> (vehicles w).
Proof.
  intros Hf Hv Ha Ht Hu. cbv zeta.
  unfold processMessage, getVehicleByID, allocVehicle, bind, gets, modify.
  rewrite Hf, Ht. simpl. rewrite Hu. simpl.
  unfold derefVehicle. rewrite Hv. simpl. rewrite Ha. simpl.
  repeat split.
Qed.

(** C6 (code defect).  The registry holds two records with the id [V1]: a
    stale one in front, as [deactivateVehicle] left it, and an active one
    behind it, as [addVehicle] appended it.  An active vehicle holds the id,
    so the CONNECT should be logged and dropped.  But [processMessage] asks
    [getVehicleByID], which answers the stale record in front; the guard
    sees [isActive] false, and the filter that follows takes every record
    with the id out of the registry, the active vehicle included.  Nothing
    is logged, a new vehicle stands in for both, and a connection
    acknowledgement goes out. *)
Theorem processMessage_connect_replaces_active_vehicle
    (timeout : Z) (vehicleUpdate : Message → Vehicle.t → Vehicle.t)
    (missionUpdate : Message → Mission.t → Mission.t) :
  let w := staleThenActiveV1 in
  let run := processMessage timeout vehicleUpdate missionUpdate connectV1 w in
  knownVehicles (orchestrator w) = [0; 1]%nat ∧
  vehicles w !! 0%nat = Some (deactivated vehicleV1) ∧
  vehicles w !! 1%nat = Some vehicleV1 ∧
  Vehicle.id vehicleV1 = getField connectV1 "sid" ∧
  Vehicle.isActive vehicleV1 = true ∧
  findVehicle (vehicles w) (JStr "V1") (knownVehicles (orchestrator w)) = Some 0%nat ∧
  fst run = Normal tt ∧
  knownVehicles (orchestrator (snd run)) = [2%nat] ∧
  (1%nat ∉ knownVehicles (orchestrator (snd run))) ∧
  vehicles (snd run) !! 2%nat
  = Some (Vehicle.new (JStr "V1") (JNum 2) (JStr "WAITING") 1000 timeout) ∧
  console (snd run) = console w ∧
  messagesSent (messageHandler (snd run)) = [JUndefined].
Proof.
  cbv zeta.
  do 6 (split; [reflexivity|]).
  destruct (processMessage_connect_stale timeout vehicleUpdate missionUpdate
              connectV1 "CONNECT" staleThenActiveV1 0 (deactivated vehicleV1))
    as (Hn & Hk & Hh);
    [reflexivity | reflexivity | reflexivity | reflexivity | reflexivity |].
  cbv zeta in Hk, Hh.
  split; [exact Hn|].
  assert (Hk' : knownVehicles
                  (orchestrator
                     (snd (processMessage timeout vehicleUpdate missionUpdate
                             connectV1 staleThenActiveV1))) = [2%nat])
    by (rewrite Hk; reflexivity).
  split; [exact Hk'|].
  split.
  { rewrite Hk'. intros Hin. apply list_elem_of_singleton in Hin. discriminate. }
  split; [rewrite Hh; reflexivity|].
  split; reflexivity.
Qed.

(** X24.  Processing a CONNECT keeps the registry at one record per id (and
    every reference in it on the heap), whether the CONNECT is refused,
    replaces a stale record or throws. *)
Lemma processMessage_connect_singleHolder
    (timeout : Z) (vu : Message → Vehicle.t → Vehicle.t)
    (mu : Message → Mission.t → Mission.t)
    (message : Message) (t : string) (w : World) :
  getField message "type" = JStr t →
  toUpperCase t = "CONNECT" →
  registryOnHeap w → singleHolder w →
  registryOnHeap (snd (processMessage timeout vu mu message w)) ∧
  singleHolder (snd (processMessage timeout vu mu message w)).
Proof.
  intros Ht Hu Hwf Hsh.
  destruct (findVehicle (vehicles w) (getField message "sid")
              (knownVehicles (orchestrator w))) as [r|] eqn:Hf.
  2: { rewrite (processMessage_connect_unknown _ _ _ _ t) by done. done. }
  destruct (findVehicle_Some _ _ _ _ Hf) as [Hin Hid].
  destruct (Hwf r Hin) as [v Hv].
  destruct (Vehicle.isActive v) eqn:Ha.
  - destruct (processMessage_connect_active timeout vu mu message t w r v
                Hf Hv Ha Ht Hu) as [line ->]. done.
  - destruct (processMessage_connect_stale timeout vu mu message t w r v
                Hf Hv Ha Ht Hu) as (_ & Hk & Hh).
    cbv zeta in Hk, Hh. unfold registryOnHeap, singleHolder.
    rewrite Hk, Hh.
    set (r' := fresh (dom (vehicles w))).
    set (new := Vehicle.new _ _ _ _ _).
    set (kept := filter _ _).
    assert (Hkept : ∀ x, x ∈ kept → x ∈ knownVehicles (orchestrator w) ∧ x ≠ r' ∧
                           Vehicle.id <$> vehicles w !! x ≠ Some (getField message "sid")).
    { intros x Hx. subst kept. apply list_elem_of_filter in Hx as [Hne Hx].
      split; [exact Hx|]. split; [|exact Hne].
      intros ->. destruct (Hwf r' Hx) as [v' Hv'].
      apply (is_fresh (dom (vehicles w))). apply elem_of_dom. eauto. }
    split.
    + intros x Hx. apply elem_of_app in Hx as [Hx|Hx].
      * destruct (Hkept x Hx) as (Hx' & Hne & _).
        rewrite lookup_insert_ne by done. by apply Hwf.
      * apply list_elem_of_singleton in Hx as ->. rewrite lookup_insert_eq. eauto.
    + rewrite fmap_app. apply NoDup_app. split; [|split].
      * assert (Heq : (λ x, Vehicle.id <$> <[r':=new]> (vehicles w) !! x) <$> kept
                      = (λ x, Vehicle.id <$> vehicles w !! x) <$> kept).
        { apply list_fmap_ext. intros i x Hx.
          apply list_elem_of_lookup_2 in Hx. destruct (Hkept x Hx) as (_ & Hne & _).
          by rewrite lookup_insert_ne. }
        rewrite Heq. eapply sublist_NoDup; [exact Hsh|].
        apply fmap_sublist. subst kept. apply sublist_filter.
      * intros i Hi Hi'. apply list_elem_of_fmap in Hi as (x & -> & Hx).
        simpl in Hi'. apply list_elem_of_singleton in Hi'.
        rewrite lookup_insert_eq in Hi'. simpl in Hi'.
        destruct (Hkept x Hx) as (_ & Hne & Hid').
        rewrite lookup_insert_ne in Hi' by done. done.
      * simpl. apply NoDup_singleton.
Qed.

Lemma findVehicle_after_connect heap (sid : JVal) (new : Vehicle.t) (l : list nat) (r' : nat) :
  Vehicle.id new = sid →
  (∀ x, x ∈ l → Vehicle.id <$> heap !! x ≠ Some sid) →
  findVehicle (<[r' := new]> heap) sid (l ++ [r']) = Some r'.
Proof.
  intros Hid. induction l as [|x l IH]; intros Hl; simpl.
  - rewrite lookup_insert_eq. simpl. rewrite Hid. by rewrite decide_True.
  - destruct (decide _) as [Hx|Hx].
    + destruct (decide (x = r')) as [->|Hne]; [reflexivity|].
      rewrite lookup_insert_ne in Hx by done.
      exfalso. apply (Hl x); [apply list_elem_of_here|exact Hx].
    + apply IH. intros y Hy. apply Hl. by apply list_elem_of_further.
Qed.

(** A deactivated vehicle is not scheduled for another ping. *)
Lemma pingAgain_f_inactive (r : nat) (v : Vehicle.t) (w : World) :
  vehicles w !! r = Some v → Vehicle.isActive v = false →
  ∃ line, pingAgain_f (Some r) w = (Normal tt, withConsole (λ c, c ++ [line]) w).
Proof.
  intros Hv Ha. unfold pingAgain_f, bind, derefVehicle.
  rewrite Hv, Ha. simpl. eexists. reflexivity.
Qed.

(** C7, as the code has it by design.  Let [r] be the record the registry
    answers for the id of [v].  After [deactivateVehicle] the record is
    inactive and unavailable and still in the registry; deactivating it
    again changes nothing and raises no error.  No timer is cancelled: the
    timer table is as before.  [pingAgain_f] on the record arms no timer,
    and when a pending liveness timer of the record expires its closure runs
    once, writes one console line, touches no vehicle, and the timer is gone
    with none in its place.  A later CONNECT with the same id returns
    normally, takes the stale record out of the registry and puts a new
    active vehicle with status WAITING in, which is the one the registry
    answers for the id from then on. *)
Theorem deactivateVehicle_then_reconnect
    (timeout : Z) (vehicleUpdate : Message → Vehicle.t → Vehicle.t)
    (missionUpdate : Message → Mission.t → Mission.t)
    (w : World) (r : nat) (v : Vehicle.t) (message : Message) (t : string) :
  findVehicle (vehicles w) (Vehicle.id v) (knownVehicles (orchestrator w)) = Some r →
  vehicles w !! r = Some v →
  getField message "sid" = Vehicle.id v →
  getField message "type" = JStr t →
  toUpperCase t = "CONNECT" →
  let w1 := snd (deactivateVehicle (Some r) w) in
  let reconnect := processMessage timeout vehicleUpdate missionUpdate message w1 in
  let w2 := snd reconnect in
  let r' := fresh (dom (vehicles w1)) in
  fst (deactivateVehicle (Some r) w) = Normal tt ∧
  (∃ v1, vehicles w1 !! r = Some v1 ∧ Vehicle.isActive v1 = false ∧
         Vehicle.isAvailable v1 = false ∧ Vehicle.id v1 = Vehicle.id v) ∧
  deactivateVehicle (Some r) w1 = (Normal tt, w1) ∧
  knownVehicles (orchestrator w1) = knownVehicles (orchestrator w) ∧
  vehicleStatusUpdater (orchestrator w1) = vehicleStatusUpdater (orchestrator w) ∧
  r ∈ knownVehicles (orchestrator w1) ∧
  fst (pingAgain_f (Some r) w1) = Normal tt ∧
  vehicleStatusUpdater (orchestrator (snd (pingAgain_f (Some r) w1)))
  = vehicleStatusUpdater (orchestrator w1) ∧
  (∀ key h, vehicleStatusUpdater (orchestrator w1) !! key = Some h →
            onExpired h = CbPingAgain (Some r) →
            fst (expireVehicleTimer key w1) = Normal tt ∧
            vehicleStatusUpdater (orchestrator (snd (expireVehicleTimer key w1)))
            = delete key (vehicleStatusUpdater (orchestrator w1)) ∧
            vehicles (snd (expireVehicleTimer key w1)) = vehicles w1 ∧
            knownVehicles (orchestrator (snd (expireVehicleTimer key w1)))
            = knownVehicles (orchestrator w1) ∧
            ∃ line, console (snd (expireVehicleTimer key w1)) = console w1 ++ [line]) ∧
  fst reconnect = Normal tt ∧
  (r ∉ knownVehicles (orchestrator w2)) ∧
  r' ∈ knownVehicles (orchestrator w2) ∧
  (∃ v2, vehicles w2 !! r' = Some v2 ∧ Vehicle.isActive v2 = true ∧
         Vehicle.status v2 = JStr "WAITING" ∧ Vehicle.id v2 = Vehicle.id v ∧
         Vehicle.jobsAvailable v2 = getField message "jobsAvailable") ∧
  findVehicle (vehicles w2) (Vehicle.id v) (knownVehicles (orchestrator w2)) = Some r'.
Proof.
  intros Hf Hv Hsid Ht Hu. cbv zeta.
  rewrite deactivateVehicle_eq. cbn [fst snd].
  set (w1 := withVehicles (alter deactivated r) w).
  assert (Hv1 : vehicles w1 !! r = Some (deactivated v)).
  { subst w1. simpl. rewrite lookup_alter_eq, Hv. reflexivity. }
  assert (Hids : ∀ x, Vehicle.id <$> vehicles w1 !! x = Vehicle.id <$> vehicles w !! x).
  { intros x. subst w1. simpl. apply lookup_alter_id. reflexivity. }
  assert (Hf1 : findVehicle (vehicles w1) (getField message "sid")
                  (knownVehicles (orchestrator w1)) = Some r).
  { rewrite Hsid. rewrite <- Hf. apply findVehicle_ext. intros x _. apply Hids. }
  destruct (findVehicle_Some _ _ _ _ Hf) as [Hin _].
  destruct (pingAgain_f_inactive r (deactivated v) w1 Hv1 eq_refl) as [line Hping].
  destruct (processMessage_connect_stale timeout vehicleUpdate missionUpdate
              message t w1 r (deactivated v) Hf1 Hv1 eq_refl Ht Hu)
    as (Hn & Hk & Hh).
  split; [reflexivity|].
  split; [exists (deactivated v); done|].
  split.
  { rewrite deactivateVehicle_eq. f_equal. subst w1.
    unfold withVehicles. simpl. f_equal.
    apply alter_id. intros x Hx. rewrite lookup_alter_eq, Hv in Hx.
    injection Hx as <-. reflexivity. }
  split; [reflexivity|]. split; [reflexivity|]. split; [exact Hin|].
  rewrite Hping. split; [reflexivity|]. split; [reflexivity|].
  split.
  { intros key h Hkey Hexp. unfold expireVehicleTimer, bind, gets, modify.
    rewrite Hkey. cbn [runCallback]. rewrite Hexp. cbn [runCallback].
    match goal with |- context [pingAgain_f (Some r) ?w0] =>
      destruct (pingAgain_f_inactive r (deactivated v) w0 Hv1 eq_refl) as [line' ->] end.
    do 4 (split; [reflexivity|]). exists line'. reflexivity. }
  split; [exact Hn|].
  assert (Hfresh : fresh (dom (vehicles w1)) ≠ r).
  { intros Heq. apply (is_fresh (dom (vehicles w1))). rewrite Heq.
    apply elem_of_dom. rewrite Hv1. eauto. }
  split.
  { rewrite Hk. intros Hr. apply elem_of_app in Hr as [Hr|Hr].
    - apply list_elem_of_filter in Hr as [Hne _]. apply Hne.
      rewrite Hsid, Hv1. reflexivity.
    - apply list_elem_of_singleton in Hr. congruence. }
  split.
  { rewrite Hk. apply elem_of_app. right. apply list_elem_of_here. }
  split.
  { eexists. rewrite Hh, lookup_insert_eq. split; [reflexivity|].
    simpl. rewrite Hsid. done. }
  rewrite Hk, Hh, <- Hsid. apply findVehicle_after_connect; [reflexivity|].
  intros x Hx. apply list_elem_of_filter in Hx as [Hne _]. exact Hne.
Qed.

(** C7 as stated fails in two places.  With two active records for [V1]
    in the registry, the second is deactivated.  Its liveness timer is still
    pending, and when it expires the closure runs and logs.  And a later
    CONNECT for [V1] does not replace the stale record: the registry answers
    the active record in front, the CONNECT is refused, and the stale record
    stays where it was. *)
Lemma deactivateVehicle_timer_pending_and_namesake_refused :
  let w := twoActiveV1 in
  let w1 := snd (deactivateVehicle (Some 1%nat) w) in
  let fired := expireVehicleTimer "V1" w1 in
  let reconnect := processMessage 30000 keepVehicle keepMission connectV1 w1 in
  knownVehicles (orchestrator w) = [0; 1]%nat ∧
  vehicles w !! 1%nat = Some vehicleV1 ∧
  vehicles w1 !! 1%nat = Some (deactivated vehicleV1) ∧
  vehicleStatusUpdater (orchestrator w1) !! "V1"
  = Some (mkHandler (CbPingAgain (Some 1%nat)) (CbPingAgain (Some 1%nat)) 1000) ∧
  fst fired = Normal tt ∧
  console (snd fired)
  = console w1
    ++ [["FAILURE: (in Class `Orchestrator`) ";
         "Refusing to re-schedule task to check on vehicle with ID: V1; is invalid not active"]] ∧
  fst reconnect = Normal tt ∧
  knownVehicles (orchestrator (snd reconnect)) = [0; 1]%nat ∧
  vehicles (snd reconnect) = vehicles w1 ∧
  vehicles (snd reconnect) !! 1%nat = Some (deactivated vehicleV1).
Proof. cbv zeta. repeat split. Qed.

(** *** Message format *)

Lemma upper_ascii_not_b (c : ascii) : upper_ascii c ≠ "b"%char.
Proof. destruct c as [[] [] [] [] [] [] [] []]; vm_compute; discriminate. Qed.

Lemma upperOfTwoBytes_head (c d : ascii) (u : string) :
  upperOfTwoBytes c d = Some u → ∃ x u', u = String x u' ∧ x ≠ "b"%char.
Proof.
  unfold upperOfTwoBytes.
  repeat (destruct (_ && _));
    intros [= <-]; eexists _, _; split; try reflexivity; discriminate.
Qed.

Lemma upperOfThreeBytes_head (c d e : ascii) (u : string) :
  upperOfThreeBytes c d e = Some u → ∃ x u', u = String x u' ∧ x ≠ "b"%char.
Proof.
  unfold upperOfThreeBytes. destruct (_ && _); [|discriminate].
  repeat (destruct (isByte e _);
          [intros [= <-]; eexists _, _; split; [reflexivity|discriminate]|]).
  discriminate.
Qed.

Lemma head_not_badMessage (x : ascii) (u : string) :
  x ≠ "b"%char → String x u ≠ "badMessage".
Proof. intros Hx H. apply Hx. by injection H. Qed.

(** The ['badMessage'] case of [isValidFormat] cannot be taken. *)
Lemma toUpperCase_not_badMessage (t : string) : toUpperCase t ≠ "badMessage".
Proof.
  destruct t as [|c r]; [discriminate|].
  destruct r as [|d r'].
  { apply head_not_badMessage, upper_ascii_not_b. }
  cbn [toUpperCase].
  destruct (upperOfTwoBytes c d) as [u|] eqn:H2.
  { destruct (upperOfTwoBytes_head _ _ _ H2) as (x & u' & -> & Hx).
    by apply head_not_badMessage. }
  destruct r' as [|e r''].
  { apply head_not_badMessage, upper_ascii_not_b. }
  destruct (upperOfThreeBytes c d e) as [u|] eqn:H3.
  { destruct (upperOfThreeBytes_head _ _ _ _ H3) as (x & u' & -> & Hx).
    by apply head_not_badMessage. }
  apply head_not_badMessage, upper_ascii_not_b.
Qed.

(** On an upper-cased type the [switch] gives the table of the spec. *)
Lemma typeFields_spec (t : string) (w : World) :
  typeFields (toUpperCase t) w = (Normal (specTypeFields (toUpperCase t)), w).
Proof.
  unfold typeFields, specTypeFields.
  repeat (destruct (decide _); [reflexivity|]).
  destruct (decide _) as [H|H]; [|reflexivity].
  by apply toUpperCase_not_badMessage in H.
Qed.

Lemma hasOwnProperty_true (o : Message) (f : string) :
  hasOwnProperty o f = true ↔ is_Some (o !! f).
Proof. unfold hasOwnProperty. apply bool_decide_eq_true. Qed.

Lemma hasOwnProperty_false (o : Message) (f : string) :
  hasOwnProperty o f = false ↔ o !! f = None.
Proof.
  unfold hasOwnProperty. rewrite bool_decide_eq_false.
  rewrite <- eq_None_not_Some. done.
Qed.

Lemma elem_of_missingFields (msg : Message) (l : list string) (f : string) :
  f ∈ missingFields msg l ↔ f ∈ l ∧ msg !! f = None.
Proof.
  unfold missingFields. rewrite list_elem_of_filter, hasOwnProperty_false. tauto.
Qed.

(** The outcome of [isValidFormat] on a message whose [type] is a string. *)
Lemma isValidFormat_string (msg : Message) (t : string) (w : World) :
  msg !! "type" = Some (JStr t) →
  isValidFormat msg w
  = (match missingFields msg (specRequiredFields (toUpperCase t)) with
     | [] => Normal VTrue
     | _ :: _ =>
         if hasOwnProperty msg "vehicleID"
         then Throw (TypeError "(intermediate value).now is not a function")
         else Normal VNull
     end, w).
Proof.
  intros Hty. unfold isValidFormat.
  assert (Hhas : hasOwnProperty msg "type" = true)
    by (apply hasOwnProperty_true; rewrite Hty; eauto).
  assert (Hget : getField msg "type" = JStr t) by (unfold getField; by rewrite Hty).
  rewrite Hhas, Hget. cbn [negb].
  unfold bind at 1. cbn [callToUpperCase ret].
  unfold bind at 1. rewrite typeFields_spec.
  fold (specRequiredFields (toUpperCase t)).
  destruct (missingFields msg (specRequiredFields (toUpperCase t))) as [|f fs];
    [reflexivity|].
  cbn [length Nat.ltb Nat.leb negb].
  destruct (hasOwnProperty msg "vehicleID"); reflexivity.
Qed.



(** *** The schedule *)

Lemma setUp_listen (ms : gmap nat Mission.t) (i r : nat) (e : Entry) :
  setUp (alter (Mission.listenForStatusUpdates i) r ms) e = setUp ms e.
Proof.
  destruct e as [| | | c|x]; simpl; try reflexivity.
  destruct (decide (r = x)) as [->|Hne].
  - rewrite lookup_alter_eq. by destruct (ms !! x).
  - by rewrite lookup_alter_ne.
Qed.

Lemma forallb_pointwise {A} (f g : A → bool) (l : list A) :
  (∀ x, f x = g x) → forallb f l = forallb g l.
Proof.
  intros Hfg. induction l as [|x l IH]; simpl; [reflexivity|].
  by rewrite Hfg, IH.
Qed.

Lemma addMissionsFrom_accept (r : nat) (m : Mission.t) (rest : list Entry) (w : World) :
  missions w !! r = Some m → Mission.setupComplete m = true →
  addMissionsFrom (EMission r :: rest) w = addMissionsFrom rest (accepted r m w).
Proof.
  intros Hm Hc. simpl. unfold bind at 1. unfold derefMission.
  rewrite Hm, Hc. reflexivity.
Qed.

Lemma addMissionsFrom_reject (r : nat) (m : Mission.t) (rest : list Entry) (w : World) :
  missions w !! r = Some m → Mission.setupComplete m = false →
  ∃ line, addMissionsFrom (EMission r :: rest) w
          = reset (withConsole (λ c, c ++ [line]) w).
Proof.
  intros Hm Hc. simpl. unfold bind at 1. unfold derefMission.
  rewrite Hm, Hc. eexists. reflexivity.
Qed.

Lemma addMissionsFrom_other (c : string) (rest : list Entry) (w : World) :
  ∃ line, addMissionsFrom (EOther c :: rest) w
          = reset (withConsole (λ c, c ++ [line]) w).
Proof. eexists. reflexivity. Qed.

Lemma setUp_true_inv (ms : gmap nat Mission.t) (e : Entry) :
  setUp ms e = true →
  ∃ r m, e = EMission r ∧ ms !! r = Some m ∧ Mission.setupComplete m = true.
Proof.
  destruct e as [| | | c|r]; simpl; try discriminate.
  destruct (ms !! r) as [m|] eqn:Hm; [|discriminate]. eauto.
Qed.

Lemma omap_pointwise {A B} (f g : A → option B) (l : list A) :
  (∀ x, f x = g x) → omap f l = omap g l.
Proof.
  intros Hfg. induction l as [|x l IH]; [reflexivity|].
  cbn. by rewrite Hfg, IH.
Qed.

(** The loop of [addMissions] runs through a prefix of set-up missions. *)
Lemma addMissionsFrom_prefix (pre rest : list Entry) (w : World) :
  forallb (setUp (missions w)) pre = true →
  addMissionsFrom (pre ++ rest) w
  = addMissionsFrom rest (acceptAll (entryRefs pre) w).
Proof.
  revert w. induction pre as [|e pre IH]; intros w Hall; [reflexivity|].
  cbn [forallb] in Hall. apply andb_true_iff in Hall as [He Hall].
  destruct (setUp_true_inv _ _ He) as (r & m & -> & Hm & Hc).
  change (entryRefs (EMission r :: pre)) with (r :: entryRefs pre).
  cbn [app acceptAll]. rewrite Hm.
  rewrite (addMissionsFrom_accept r m) by done.
  apply IH. rewrite <- Hall. apply forallb_pointwise.
  intros e. unfold accepted. cbn [missions withMissions withOrchestrator].
  apply setUp_listen.
Qed.

(** What accepting a run of missions does to the world. *)
Lemma acceptAll_effect (refs : list nat) (w : World) :
  (∀ r, r ∈ refs → is_Some (missions w !! r)) →
  let w' := acceptAll refs w in
  scheduledMissions (orchestrator w') = scheduledMissions (orchestrator w) ++ refs ∧
  scheduledMissionsStatus (orchestrator w')
  = scheduledMissionsStatus (orchestrator w) ++ statusesOf (missions w) refs ∧
  isRunning (orchestrator w') = isRunning (orchestrator w) ∧
  currentMission (orchestrator w') = currentMission (orchestrator w) ∧
  currentMissionIndex (orchestrator w') = currentMissionIndex (orchestrator w) ∧
  knownVehicles (orchestrator w') = knownVehicles (orchestrator w) ∧
  vehicles w' = vehicles w ∧ messageHandler w' = messageHandler w ∧
  console w' = console w ∧
  (∀ r m, missions w !! r = Some m →
     ∃ m', missions w' !! r = Some m' ∧
           Mission.status m' = Mission.status m ∧
           Mission.setupComplete m' = Mission.setupComplete m ∧
           (∀ i, i ∈ Mission.listeners m → i ∈ Mission.listeners m') ∧
           (∀ i, refs !! i = Some r →
                 (length (scheduledMissions (orchestrator w)) + i)%nat
                   ∈ Mission.listeners m')).
Proof.
  revert w. induction refs as [|r refs IH]; intros w Hheap; cbv zeta.
  - cbn [acceptAll]. rewrite !app_nil_r.
    do 9 (split; [reflexivity|]).
    intros r m Hm. exists m. do 3 (split; [done|]). split; [done|].
    intros i Hi. by rewrite lookup_nil in Hi.
  - cbn [acceptAll]. destruct (Hheap r) as [m Hm]; [apply list_elem_of_here|].
    rewrite Hm.
    assert (Hstep : ∀ x mx, missions w !! x = Some mx →
              ∃ mx', missions (accepted r m w) !! x = Some mx' ∧
                     Mission.status mx' = Mission.status mx ∧
                     Mission.setupComplete mx' = Mission.setupComplete mx ∧
                     (∀ i, i ∈ Mission.listeners mx → i ∈ Mission.listeners mx') ∧
                     (x = r → length (scheduledMissions (orchestrator w))
                                ∈ Mission.listeners mx')).
    { intros x mx Hx. unfold accepted. cbn [missions withMissions withOrchestrator].
      destruct (decide (r = x)) as [->|Hne].
      - rewrite lookup_alter_eq, Hx. eexists. split; [reflexivity|].
        do 2 (split; [reflexivity|]). cbn [Mission.listeners Mission.listenForStatusUpdates].
        split.
        + intros i Hi. apply elem_of_app. by left.
        + intros _. apply elem_of_app. right. apply list_elem_of_here.
      - rewrite lookup_alter_ne by done. exists mx.
        do 3 (split; [done|]). split; [done|]. congruence. }
    destruct (IH (accepted r m w)) as (Hs & Hst & Hrun & Hcur & Hidx & Hkn & Hv & Hmh & Hco & Hms).
    { intros x Hx. destruct (Hheap x) as [mx Hmx]; [by apply list_elem_of_further|].
      destruct (Hstep x mx Hmx) as (mx' & Hx' & _). eauto. }
    cbv zeta in *.
    split. { rewrite Hs. unfold accepted. simpl. by rewrite <- app_assoc. }
    split. { rewrite Hst. unfold accepted. simpl. rewrite <- app_assoc. f_equal.
             unfold statusesOf. cbn [omap]. rewrite Hm. cbn [fmap option_fmap option_map].
             f_equal. apply omap_pointwise.
             intros x. destruct (decide (r = x)) as [->|Hne].
             - rewrite lookup_alter_eq. by destruct (missions w !! x).
             - by rewrite lookup_alter_ne. }
    do 7 (split; [first [rewrite Hrun | rewrite Hcur | rewrite Hidx | rewrite Hkn
                         | rewrite Hv | rewrite Hmh | rewrite Hco]; reflexivity|]).
    intros x mx Hx.
    destruct (Hstep x mx Hx) as (mx1 & Hx1 & Hs1 & Hc1 & Hl1 & Hnew).
    destruct (Hms x mx1 Hx1) as (mx2 & Hx2 & Hs2 & Hc2 & Hl2 & Hpos).
    exists mx2. split; [exact Hx2|]. split; [congruence|]. split; [congruence|].
    split; [intros i Hi; by apply Hl2, Hl1|].
    intros [|i] Hi.
    + injection Hi as <-. rewrite Nat.add_0_r. apply Hl2, Hnew. reflexivity.
    + cbn in Hi. specialize (Hpos i Hi).
      unfold accepted in Hpos. cbn in Hpos. rewrite length_app in Hpos. cbn in Hpos.
      by replace (length (scheduledMissions (orchestrator w)) + S i)%nat
        with (length (scheduledMissions (orchestrator w)) + 1 + i)%nat by lia.
Qed.

Lemma setUp_entryRefs (ms : gmap nat Mission.t) (batch : list Entry) :
  forallb (setUp ms) batch = true →
  (∀ r, r ∈ entryRefs batch → is_Some (ms !! r)) ∧
  (∀ i r, batch !! i = Some (EMission r) → entryRefs batch !! i = Some r).
Proof.
  induction batch as [|e batch IH]; intros Hall.
  - split; [intros r Hr; by apply not_elem_of_nil in Hr|].
    intros i r Hi. by rewrite lookup_nil in Hi.
  - cbn [forallb] in Hall. apply andb_true_iff in Hall as [He Hall].
    destruct (setUp_true_inv _ _ He) as (r0 & m & -> & Hm & _).
    destruct (IH Hall) as [IH1 IH2].
    change (entryRefs (EMission r0 :: batch)) with (r0 :: entryRefs batch).
    split.
    + intros r Hr. apply elem_of_cons in Hr as [->|Hr]; [eauto|by apply IH1].
    + intros [|i] r Hi; [by injection Hi as <-|]. by apply IH2.
Qed.

(** A batch with an entry that is not a set-up mission has a first such
    entry, behind a run of set-up missions. *)
Lemma not_setUp_split (ms : gmap nat Mission.t) (batch : list Entry) :
  forallb (setUp ms) batch = false →
  ∃ pre e rest, batch = pre ++ e :: rest ∧
    forallb (setUp ms) pre = true ∧ setUp ms e = false.
Proof.
  induction batch as [|x batch IH]; [discriminate|].
  cbn [forallb]. destruct (setUp ms x) eqn:Hx.
  - intros Hbad. destruct (IH Hbad) as (pre & e & rest & -> & Hpre & He).
    exists (x :: pre), e, rest. split; [reflexivity|].
    split; [|exact He]. cbn [forallb]. by rewrite Hx.
  - intros _. exists [], x, batch. done.
Qed.

(** C4, as the code has it by design.  No mission is running, and the first
    entry of the batch that is not a set-up Mission is a value whose
    constructor can be named (so neither [null], nor [undefined], nor an
    object without a constructor).  Then [addMissions] returns normally
    after one console line and leaves the schedule and the status table
    empty, the running flag off and the current pointers cleared: neither
    the failing entry, nor the set-up missions before it in the batch, nor
    what was scheduled earlier remains, and the entries behind it are not
    looked at.  (Every batch with an entry that is not a set-up Mission has
    this shape, by [not_setUp_split].) *)
Theorem addMissions_fail_fast (pre rest : list Entry) (e : Entry) (w : World) :
  isRunning (orchestrator w) = false →
  forallb (setUp (missions w)) pre = true →
  setUp (missions w) e = false →
  hasConstructor e = true →
  onHeap (missions w) e = true →
  let w' := snd (addMissions (pre ++ e :: rest) w) in
  fst (addMissions (pre ++ e :: rest) w) = Normal tt ∧
  scheduledMissions (orchestrator w') = [] ∧
  scheduledMissionsStatus (orchestrator w') = [] ∧
  isReset (orchestrator w') ∧
  ∃ line, console w' = console w ++ [line].
Proof.
  intros Hrun Hpre Hbad Hcon Hheap. cbv zeta.
  destruct (setUp_entryRefs _ _ Hpre) as [Hrefs _].
  destruct (acceptAll_effect (entryRefs pre) w Hrefs)
    as (_ & _ & _ & _ & _ & _ & _ & _ & Hco & Hms).
  cbv zeta in Hco, Hms.
  assert (Heq : ∃ line, addMissions (pre ++ e :: rest) w
            = reset (withConsole (λ c, c ++ [line]) (acceptAll (entryRefs pre) w))).
  { unfold addMissions, bind, gets. rewrite Hrun.
    rewrite addMissionsFrom_prefix by exact Hpre.
    destruct e as [| | | c|r]; try discriminate.
    - apply addMissionsFrom_other.
    - cbn [setUp onHeap] in Hbad, Hheap.
      destruct (missions w !! r) as [m|] eqn:Hm; [|discriminate].
      destruct (Hms r m Hm) as (m' & Hm' & _ & Hc & _).
      apply (addMissionsFrom_reject r m'); [exact Hm'|congruence]. }
  destruct Heq as [line ->]. cbn [reset modify fst snd].
  split; [reflexivity|]. split; [reflexivity|]. split; [reflexivity|].
  split; [repeat split|].
  exists line. cbn. by rewrite Hco.
Qed.

(** C4 as stated fails while a mission is running: with [M0] and [M1]
    scheduled and [M0] started, adding a batch with an entry that is not a
    Mission returns at the guard and the schedule keeps both missions. *)
Lemma addMissions_while_running_keeps_schedule :
  let w := runningM0 enterRunning (JStr "d0") in
  let batch := [EMission 0; EOther "Object"] in
  forallb (setUp (missions w)) batch = false ∧
  isRunning (orchestrator w) = true ∧
  fst (addMissions batch w) = Normal tt ∧
  scheduledMissions (orchestrator (snd (addMissions batch w))) = [0; 1]%nat ∧
  scheduledMissionsStatus (orchestrator (snd (addMissions batch w)))
  = [JStr "RUNNING"; JStr "READY"].
Proof. cbv zeta. repeat split. Qed.

Lemma parallel_reset (w : World) : parallel (snd (reset w)).
Proof.
  split; [reflexivity|]. intros i r Hi. simpl in Hi.
  by rewrite lookup_nil in Hi.
Qed.

Lemma parallel_accepted (r : nat) (m : Mission.t) (w : World) :
  missions w !! r = Some m → parallel w → parallel (accepted r m w).
Proof.
  intros Hm [Hlen Hpos]. split.
  - simpl. rewrite !length_app, Hlen. reflexivity.
  - intros i x Hi. simpl in Hi |- *.
    assert (Hstatus : ∀ y my, missions w !! y = Some my →
              ∃ my', alter (Mission.listenForStatusUpdates
                              (length (scheduledMissions (orchestrator w)))) r
                       (missions w) !! y = Some my' ∧
                     Mission.status my' = Mission.status my).
    { intros y my Hy. destruct (decide (r = y)) as [->|Hne].
      - rewrite lookup_alter_eq, Hy. eexists. split; reflexivity.
      - rewrite lookup_alter_ne by done. eauto. }
    apply lookup_app_Some in Hi as [Hi|[Hge Hi]].
    + destruct (Hpos i x Hi) as (mx & Hx & Hs).
      destruct (Hstatus x mx Hx) as (mx' & Hx' & Hs').
      exists mx'. split; [exact Hx'|].
      rewrite Hs'. apply lookup_app_l_Some. exact Hs.
    + apply list_lookup_singleton_Some in Hi as [Hi ->].
      destruct (Hstatus x m Hm) as (m' & Hx' & Hs').
      exists m'. split; [exact Hx'|].
      rewrite Hs'. assert (i = length (scheduledMissionsStatus (orchestrator w))) as -> by lia.
      rewrite lookup_app_r by lia. by rewrite Nat.sub_diag.
Qed.

Lemma addMissionsFrom_parallel (batch : list Entry) (w : World) :
  parallel w → parallel (snd (addMissionsFrom batch w)).
Proof.
  revert w. induction batch as [|e batch IH]; intros w Hp; [exact Hp|].
  destruct e as [| | | c|r].
  - exact Hp.
  - exact Hp.
  - exact Hp.
  - destruct (addMissionsFrom_other c batch w) as [line ->]. apply parallel_reset.
  - destruct (missions w !! r) as [m|] eqn:Hm.
    + destruct (Mission.setupComplete m) eqn:Hc.
      * rewrite (addMissionsFrom_accept r m) by done.
        apply IH. by apply parallel_accepted.
      * destruct (addMissionsFrom_reject r m batch w Hm Hc) as [line ->].
        apply parallel_reset.
    + simpl. unfold bind at 1. unfold derefMission. rewrite Hm. exact Hp.
Qed.

(** Table and schedule run in parallel when [addMissions] is entered with
    them in parallel, and always when [reset] returns. *)
Lemma addMissions_parallel (batch : list Entry) (w : World) :
  parallel w → parallel (snd (addMissions batch w)).
Proof.
  intros Hp. unfold addMissions, bind, gets.
  destruct (isRunning (orchestrator w)); [exact Hp|].
  by apply addMissionsFrom_parallel.
Qed.

Lemma parallel_newWorld vs ms now : parallel (newWorld vs ms now).
Proof.
  split; [reflexivity|]. intros i r Hi. simpl in Hi. by rewrite lookup_nil in Hi.
Qed.

(** C10 (code defect).  The constructor, [addMissions] and [reset] each
    leave [scheduledMissions] and [scheduledMissionsStatus] in parallel, but
    [reset] does not take back the status listeners that [addMissions]
    registered, and a listener writes to the position it captured in
    whatever array the orchestrator holds when it runs.

    First run: [M0] is added and the orchestrator is reset; when [M0] then
    leaves READY, its listener writes position 0 of the new, empty table,
    which gets one entry while the schedule has none.

    Second run: [M0] and [M1] are added, the orchestrator is reset and [M1]
    is added again, now at position 0; [M1] carries a listener for
    position 1 and one for position 0.  Starting it makes both write: the
    table has two entries, the schedule one. *)
Theorem reset_keeps_status_listeners :
  let w0 := newWorld ∅ {[ 0%nat := readyMission "M0" ]} 1000 in
  let w1 := snd (addMissions [EMission 0] w0) in
  let w2 := snd (reset w1) in
  let w3 := snd (reportStatus 0 "NOT_READY" w2) in
  let v1 := snd (addMissions [EMission 0; EMission 1] twoMissions) in
  let v2 := snd (addMissions [EMission 1] (snd (reset v1))) in
  let v3 := snd (startMission enterRunning (JStr "d1") v2) in
  (parallel w0 ∧ parallel w1 ∧ parallel w2 ∧
   scheduledMissions (orchestrator w1) = [0%nat] ∧
   scheduledMissionsStatus (orchestrator w1) = [JStr "READY"] ∧
   Mission.listeners <$> missions w2 !! 0%nat = Some [0%nat] ∧
   fst (reportStatus 0 "NOT_READY" w2) = Normal tt ∧
   scheduledMissions (orchestrator w3) = [] ∧
   scheduledMissionsStatus (orchestrator w3) = [JStr "NOT_READY"] ∧
   ¬ parallel w3) ∧
  (parallel v1 ∧ parallel v2 ∧
   scheduledMissions (orchestrator v2) = [1%nat] ∧
   scheduledMissionsStatus (orchestrator v2) = [JStr "READY"] ∧
   Mission.listeners <$> missions v2 !! 1%nat = Some [1%nat; 0%nat] ∧
   fst (startMission enterRunning (JStr "d1") v2) = Normal tt ∧
   scheduledMissions (orchestrator v3) = [1%nat] ∧
   scheduledMissionsStatus (orchestrator v3) = [JStr "RUNNING"; JStr "RUNNING"] ∧
   ¬ parallel v3).
Proof.
  cbv zeta. split.
  - split; [apply parallel_newWorld|].
    split; [apply addMissions_parallel, parallel_newWorld|].
    split; [apply parallel_reset|].
    do 6 (split; [reflexivity|]).
    intros [Hlen _]. vm_compute in Hlen. discriminate.
  - split; [apply addMissions_parallel, parallel_newWorld|].
    split; [apply addMissions_parallel, parallel_reset|].
    do 6 (split; [reflexivity|]).
    intros [Hlen _]. vm_compute in Hlen. discriminate.
Qed.

(** ** The theorems at concrete inputs *)

Lemma addMissions_fail_fast_witness :
  fst (addMissions ([EMission 0] ++ EMission 1 :: []) missionsAB) = Normal tt ∧
  scheduledMissions
    (orchestrator (snd (addMissions ([EMission 0] ++ EMission 1 :: []) missionsAB)))
  = [].
Proof.
  destruct (addMissions_fail_fast [EMission 0] [] (EMission 1) missionsAB)
    as (Hn & Hs & _);
    [reflexivity | reflexivity | reflexivity | reflexivity | reflexivity |].
  split; [exact Hn | exact Hs].
Defined.

Lemma processMessage_connect_conflict_witness :
  fst (processMessage 30000 keepVehicle keepMission connectV1 fleetV1) = Normal tt ∧
  knownVehicles
    (orchestrator (snd (processMessage 30000 keepVehicle keepMission connectV1 fleetV1)))
  = knownVehicles (orchestrator fleetV1).
Proof.
  destruct (processMessage_connect_conflict 30000 keepVehicle keepMission
              connectV1 "CONNECT" fleetV1 0 vehicleV1)
    as (Hn & Hk & _); [reflexivity | reflexivity | reflexivity | reflexivity | reflexivity |].
  split; [exact Hn | exact Hk].
Defined.

Lemma deactivateVehicle_then_reconnect_witness :
  deactivateVehicle (Some 0%nat) (snd (deactivateVehicle (Some 0%nat) fleetV1))
  = (Normal tt, snd (deactivateVehicle (Some 0%nat) fleetV1)) ∧
  fst (processMessage 30000 keepVehicle keepMission connectV1
         (snd (deactivateVehicle (Some 0%nat) fleetV1))) = Normal tt.
Proof.
  destruct (deactivateVehicle_then_reconnect 30000 keepVehicle keepMission
              fleetV1 0 vehicleV1 connectV1 "CONNECT")
    as (_ & _ & Hidem & _ & _ & _ & _ & _ & _ & Hn & _);
    [reflexivity | reflexivity | reflexivity | reflexivity | reflexivity |].
  split; [exact Hidem | exact Hn].
Defined.

(** ** Further properties of the code *)

(** *** The registry: lookup, insertion, liveness *)

Lemma findVehicle_split heap (vID : JVal) (known : list nat) :
  match findVehicle heap vID known with
  | Some r =>
      ∃ before after, known = before ++ r :: after ∧
        Vehicle.id <$> heap !! r = Some vID ∧
        ∀ x, x ∈ before → Vehicle.id <$> heap !! x ≠ Some vID
  | None => ∀ x, x ∈ known → Vehicle.id <$> heap !! x ≠ Some vID
  end.
Proof.
  induction known as [|x known IH]; simpl.
  - intros y Hy. by apply not_elem_of_nil in Hy.
  - destruct (decide _) as [Hx|Hx].
    + exists [], known. split; [reflexivity|]. split; [exact Hx|].
      intros y Hy. by apply not_elem_of_nil in Hy.
    + destruct (findVehicle heap vID known) as [r|].
      * destruct IH as (before & after & -> & Hr & Hb).
        exists (x :: before), after. split; [reflexivity|]. split; [exact Hr|].
        intros y Hy. apply elem_of_cons in Hy as [->|Hy]; [exact Hx|by apply Hb].
      * intros y Hy. apply elem_of_cons in Hy as [->|Hy]; [exact Hx|by apply IH].
Qed.

Lemma findVehicle_app heap (vID : JVal) (l1 l2 : list nat) :
  findVehicle heap vID (l1 ++ l2)
  = match findVehicle heap vID l1 with
    | Some r => Some r
    | None => findVehicle heap vID l2
    end.
Proof.
  induction l1 as [|x l1 IH]; simpl; [reflexivity|].
  destruct (decide _); [reflexivity|exact IH].
Qed.

(** X1.  [getVehicleByID(vID)] reads only: it answers the first vehicle of
    [knownVehicles] whose [id] is [vID], so every vehicle before it has
    another id, and [null] exactly when no known vehicle has that id. *)
Theorem getVehicleByID_first_match (vID : JVal) (w : World) :
  ∃ res : option nat,
    getVehicleByID vID w = (Normal res, w) ∧
    match res with
    | Some r =>
        ∃ before after,
          knownVehicles (orchestrator w) = before ++ r :: after ∧
          Vehicle.id <$> vehicles w !! r = Some vID ∧
          ∀ x, x ∈ before → Vehicle.id <$> vehicles w !! x ≠ Some vID
    | None =>
        ∀ x, x ∈ knownVehicles (orchestrator w) →
             Vehicle.id <$> vehicles w !! x ≠ Some vID
    end.
Proof.
  eexists. split; [reflexivity|]. apply findVehicle_split.
Qed.

(** X2.  [addVehicle(vehicle)] appends the vehicle to [knownVehicles] without
    looking for its id, and arms a 1000 ms timer under the vehicle's id whose
    two closures both call [pingAgain_f] on it.  Afterwards [getVehicleByID]
    finds the vehicle under its id when no vehicle known before had that id;
    when one had, that earlier vehicle keeps being the answer and the
    registry holds two records with the id. *)
Theorem addVehicle_then_lookup (r : nat) (v : Vehicle.t) (w : World) :
  vehicles w !! r = Some v →
  let w' := snd (addVehicle r w) in
  let known := knownVehicles (orchestrator w) in
  fst (addVehicle r w) = Normal tt ∧
  knownVehicles (orchestrator w') = known ++ [r] ∧
  vehicles w' = vehicles w ∧
  vehicleStatusUpdater (orchestrator w')
  = <[toString (Vehicle.id v) :=
        mkHandler (CbPingAgain (Some r)) (CbPingAgain (Some r)) 1000]>
      (vehicleStatusUpdater (orchestrator w)) ∧
  (findVehicle (vehicles w) (Vehicle.id v) known = None →
   findVehicle (vehicles w') (Vehicle.id v) (knownVehicles (orchestrator w')) = Some r) ∧
  (∀ r0, findVehicle (vehicles w) (Vehicle.id v) known = Some r0 →
         findVehicle (vehicles w') (Vehicle.id v) (knownVehicles (orchestrator w')) = Some r0 ∧
         ¬ singleHolder w').
Proof.
  intros Hv. cbv zeta.
  assert (Heq : addVehicle r w
    = (Normal tt,
       withOrchestrator (λ o, setKnownVehicles (knownVehicles o ++ [r]) o)
         (withOrchestrator (λ o,
            setVehicleStatusUpdater
              (addHandler (toString (Vehicle.id v))
                 (CbPingAgain (Some r)) (CbPingAgain (Some r)) 1000
                 (vehicleStatusUpdater o)) o) w))).
  { unfold addVehicle, bind, derefVehicle. rewrite Hv. reflexivity. }
  rewrite Heq. cbn [fst snd].
  split; [reflexivity|]. split; [reflexivity|]. split; [reflexivity|].
  split; [reflexivity|].
  cbn [withOrchestrator vehicles orchestrator knownVehicles setKnownVehicles
       setVehicleStatusUpdater].
  split.
  - intros Hnone. rewrite findVehicle_app, Hnone. simpl.
    rewrite Hv. simpl. by rewrite decide_True.
  - intros r0 Hsome. split.
    + by rewrite findVehicle_app, Hsome.
    + unfold singleHolder.
      cbn [withOrchestrator vehicles orchestrator knownVehicles setKnownVehicles
           setVehicleStatusUpdater].
      rewrite fmap_app. intros Hnd. apply NoDup_app in Hnd as (_ & Hdisj & _).
      destruct (findVehicle_Some _ _ _ _ Hsome) as [Hin Hid].
      apply (Hdisj (Vehicle.id <$> vehicles w !! r0)).
      * apply (list_elem_of_fmap_2 (λ x, Vehicle.id <$> vehicles w !! x)). exact Hin.
      * simpl. rewrite Hid, Hv. simpl. apply list_elem_of_here.
Qed.

(** X3.  [pingAgain_f] on an active vehicle: when the time since the last
    contact lies between 0 and the vehicle's timeout length, the vehicle is
    left as it is and a timer is armed under its id whose delay is that
    elapsed time; otherwise (contact too old, or stamped in the future) the
    vehicle is deactivated and no timer is armed.  On [null] the guard reads
    [isActive] of [null] and throws. *)
Theorem pingAgain_f_active (r : nat) (v : Vehicle.t) (w : World) :
  vehicles w !! r = Some v →
  Vehicle.isActive v = true →
  let delta := (clock w - Vehicle.lastConnTime v)%Z in
  let w' := snd (pingAgain_f (Some r) w) in
  fst (pingAgain_f (Some r) w) = Normal tt ∧
  ((0 ≤ delta ≤ Vehicle.vehicleTimeoutLength v)%Z →
     vehicles w' = vehicles w ∧
     vehicleStatusUpdater (orchestrator w')
     = <[toString (Vehicle.id v) :=
           mkHandler (CbPingAgain (Some r)) (CbPingAgain (Some r)) delta]>
         (vehicleStatusUpdater (orchestrator w))) ∧
  (¬ (0 ≤ delta ≤ Vehicle.vehicleTimeoutLength v)%Z →
     vehicles w' !! r = Some (deactivated v) ∧
     vehicleStatusUpdater (orchestrator w') = vehicleStatusUpdater (orchestrator w)) ∧
  knownVehicles (orchestrator w') = knownVehicles (orchestrator w) ∧
  console w' = console w ∧
  pingAgain_f None w
  = (Throw (TypeError "Cannot read property 'isActive' of null"), w).
Proof.
  intros Hv Ha. cbv zeta.
  unfold pingAgain_f, bind, derefVehicle, gets. rewrite Hv. cbn [fst snd].
  rewrite Ha. cbn [negb].
  destruct (Z.leb_spec 0 (clock w - Vehicle.lastConnTime v)) as [H0|H0];
    destruct (Z.leb_spec (clock w - Vehicle.lastConnTime v)
                (Vehicle.vehicleTimeoutLength v)) as [H1|H1]; cbn [andb].
  - split; [reflexivity|]. split; [intros _; split; reflexivity|].
    split; [intros Hn; exfalso; apply Hn; lia|]. repeat split.
  - rewrite deactivateVehicle_eq. split; [reflexivity|].
    split; [intros Hr; lia|].
    split; [intros _; split; [simpl; by rewrite lookup_alter_eq, Hv|reflexivity]|].
    repeat split.
  - rewrite deactivateVehicle_eq. split; [reflexivity|].
    split; [intros Hr; lia|].
    split; [intros _; split; [simpl; by rewrite lookup_alter_eq, Hv|reflexivity]|].
    repeat split.
  - rewrite deactivateVehicle_eq. split; [reflexivity|].
    split; [intros Hr; lia|].
    split; [intros _; split; [simpl; by rewrite lookup_alter_eq, Hv|reflexivity]|].
    repeat split.
Qed.

(** X4.  [deactivateVehicle] changes nothing but the two flags of the
    vehicle it is given: the vehicle keeps its id, jobs, status and contact
    times, every other vehicle, the registry, the timers, the message handler
    and the missions are as before.  On [null] it throws and changes
    nothing. *)
Theorem deactivateVehicle_frame (vehicle : option nat) (w : World) :
  let w' := snd (deactivateVehicle vehicle w) in
  orchestrator w' = orchestrator w ∧
  messageHandler w' = messageHandler w ∧
  missions w' = missions w ∧
  console w' = console w ∧
  dom (vehicles w') = dom (vehicles w) ∧
  (∀ x, vehicle ≠ Some x → vehicles w' !! x = vehicles w !! x) ∧
  (∀ x v, vehicle = Some x → vehicles w !! x = Some v →
     fst (deactivateVehicle vehicle w) = Normal tt ∧
     vehicles w' !! x
     = Some (Vehicle.mk (Vehicle.id v) (Vehicle.jobsAvailable v) (Vehicle.status v)
               false false (Vehicle.lastConnTime v) (Vehicle.vehicleTimeoutLength v))) ∧
  (vehicle = None →
     deactivateVehicle vehicle w
     = (Throw (TypeError "Cannot read property 'setActive' of null"), w)).
Proof.
  cbv zeta. destruct vehicle as [r|].
  - rewrite deactivateVehicle_eq. cbn [fst snd].
    do 4 (split; [reflexivity|]).
    split; [simpl; apply dom_alter_L|].
    split; [intros x Hne; simpl; apply lookup_alter_ne; congruence|].
    split; [|discriminate].
    intros x v [= <-] Hv. split; [reflexivity|].
    simpl. rewrite lookup_alter_eq, Hv. reflexivity.
  - do 5 (split; [reflexivity|]).
    split; [reflexivity|]. split; [discriminate|reflexivity].
Qed.

(** *** The message handler: what a send and a receive leave behind *)

Lemma forOf_asyncSendMessage_strings (l : list string) (w : World) :
  l ≠ [] →
  forOf l (λ v, asyncSendMessage (APrim (JStr v))) w
  = (Normal tt,
     withMessageHandler (λ h,
       setUpdateHandler
         (<["undefined-undefined-undefined" :=
              mkHandler (CbRmMsg (APrim (JStr (List.last l ""))))
                        (CbDeactivate (APrim (JStr (List.last l "")))) 3000]>
            (updateHandler h)) h) w).
Proof.
  revert w. induction l as [|v l IH]; intros w Hne; [done|].
  destruct l as [|v' l].
  - reflexivity.
  - change (forOf (v :: v' :: l) (λ v, asyncSendMessage (APrim (JStr v))) w)
      with (forOf (v' :: l) (λ v, asyncSendMessage (APrim (JStr v)))
              (snd (asyncSendMessage (APrim (JStr v)) w))).
    rewrite IH by done.
    change (List.last (v :: v' :: l) "") with (List.last (v' :: l) "").
    f_equal. unfold withMessageHandler, setUpdateHandler. simpl.
    unfold addHandler, eventString. simpl. by rewrite insert_insert_eq.
Qed.

Lemma messageRecipients_string (message : Message) (t : string) (w : World) :
  getField message "type" = JStr t →
  ∃ l, messageRecipients message w = (Normal l, w) ∧ List.last l "" = "GCS" ∧ l ≠ [].
Proof.
  intros Ht. unfold messageRecipients, bind. rewrite Ht. simpl.
  eexists. split; [reflexivity|].
  destruct (decide _); [done|]. destruct (decide _); done.
Qed.

(** The world a send leaves when the message type is a string. *)
Lemma sendMessageTo_string (vehicle : JVal) (message : Message) (t : string) (w : World) :
  getField message "type" = JStr t →
  sendMessageTo vehicle message w
  = (Normal tt,
     withMessageHandler (λ h,
       mkMessageHandler
         (if decide (t = "ACK")
          then filter (λ obj, ¬ (getField obj "id" = getField message "ackID"))
                      (messageOutbox h)
          else messageOutbox h)
         (messagesSent h ++ [getField message "id"])
         (messagesReceived h) (messageIDSeed h)
         (<["undefined-undefined-undefined" :=
              mkHandler (CbRmMsg (APrim (JStr "GCS")))
                        (CbDeactivate (APrim (JStr "GCS"))) 3000]>
            (updateHandler h))) w).
Proof.
  intros Ht. unfold sendMessageTo. rewrite Ht.
  set (w1 := (if decide (t = "ACK")
              then withMessageHandler
                     (setMessageOutbox
                        (filter (λ obj, ¬ (getField obj "id" = getField message "ackID"))
                           (messageOutbox (messageHandler w)))) w
              else w)).
  assert (H1 : (if decide (JStr t = JStr "ACK")
                then
                  box <- gets (λ w, messageOutbox (messageHandler w)) ;;
                  box' <- rmMsg (getField message "ackID") box ;;
                  modify (withMessageHandler (setMessageOutbox box'))
                else ret tt) w = (Normal tt, w1)).
  { subst w1. destruct (decide (t = "ACK")) as [->|Hne].
    - rewrite decide_True by done. reflexivity.
    - rewrite decide_False by congruence. reflexivity. }
  unfold bind at 1. rewrite H1.
  destruct (messageRecipients_string message t w1 Ht) as (l & Hl & Hlast & Hne).
  unfold bind at 1. rewrite Hl.
  unfold bind at 1. rewrite forOf_asyncSendMessage_strings by exact Hne.
  rewrite Hlast. subst w1. destruct (decide (t = "ACK")); reflexivity.
Qed.

Lemma sendMessageTo_not_string (vehicle : JVal) (message : Message) (w : World) :
  (∀ t, getField message "type" ≠ JStr t) →
  ∃ e, sendMessageTo vehicle message w = (Throw e, w).
Proof.
  intros Hty. unfold sendMessageTo.
  rewrite decide_False by apply Hty.
  unfold bind, messageRecipients, bind, ret.
  destruct (getField message "type") as [| | | |s] eqn:Hg;
    try (eexists; reflexivity).
  by destruct (Hty s).
Qed.

(** X5.  Whatever [sendMessageTo] is given, and whether or not it throws,
    it never adds to [messageOutbox]: a message whose [type] is exactly the
    string [ACK] takes out every entry whose [id] is its [ackID], and any
    other message (a lower-case [ack] included) leaves the outbox as it
    is. *)
Theorem sendMessageTo_outbox_effect (vehicle : JVal) (message : Message) (w : World) :
  messageOutbox (messageHandler (snd (sendMessageTo vehicle message w)))
  = if decide (getField message "type" = JStr "ACK")
    then filter (λ obj, ¬ (getField obj "id" = getField message "ackID"))
                (messageOutbox (messageHandler w))
    else messageOutbox (messageHandler w).
Proof.
  destruct (getField message "type") as [| | | |t] eqn:Hg.
  1-4: destruct (sendMessageTo_not_string vehicle message w) as [e ->];
       [intros t; rewrite Hg; discriminate|];
       rewrite decide_False by discriminate; reflexivity.
  rewrite (sendMessageTo_string vehicle message t w Hg). cbn [snd].
  destruct (decide (t = "ACK")) as [->|Hne].
  - rewrite decide_True by done. reflexivity.
  - rewrite decide_False by congruence. reflexivity.
Qed.

(** X6.  A send of a message whose [type] is a string returns normally,
    records the message's own [id] field (whatever it holds) in
    [messagesSent], and arms its timer under the one key
    [undefined-undefined-undefined] with closures over the string [GCS]:
    every send overwrites the timer of the send before it, and the
    orchestrator, the vehicles and the missions are not touched.  When the
    [type] is not a string the send throws and changes nothing. *)
Theorem sendMessageTo_one_timer_key (vehicle : JVal) (message : Message) (w : World) :
  let w' := snd (sendMessageTo vehicle message w) in
  (∀ t, getField message "type" = JStr t →
     fst (sendMessageTo vehicle message w) = Normal tt ∧
     messagesSent (messageHandler w')
     = messagesSent (messageHandler w) ++ [getField message "id"] ∧
     updateHandler (messageHandler w')
     = <["undefined-undefined-undefined" :=
           mkHandler (CbRmMsg (APrim (JStr "GCS")))
                     (CbDeactivate (APrim (JStr "GCS"))) 3000]>
         (updateHandler (messageHandler w)) ∧
     messagesReceived (messageHandler w') = messagesReceived (messageHandler w) ∧
     orchestrator w' = orchestrator w ∧ vehicles w' = vehicles w ∧
     missions w' = missions w ∧ console w' = console w) ∧
  ((∀ t, getField message "type" ≠ JStr t) →
     w' = w ∧ ∃ e, fst (sendMessageTo vehicle message w) = Throw e).
Proof.
  cbv zeta. split.
  - intros t Ht. rewrite (sendMessageTo_string vehicle message t w Ht).
    repeat split.
  - intros Hty. destruct (sendMessageTo_not_string vehicle message w Hty) as [e ->].
    split; [reflexivity|]. exists e. reflexivity.
Qed.

(** X7.  The expiry closure of the timer a send arms deactivates nobody:
    it looks the vehicle up under [msg.tid], which is [undefined] on the
    string [asyncSendMessage] was given (and on any message without a [tid]),
    so unless a known vehicle has the id [undefined] the lookup answers
    [null] and [deactivateVehicle(null)] throws, leaving the world as it
    is. *)
Theorem ack_timeout_deactivates_nobody (w : World) :
  findVehicle (vehicles w) JUndefined (knownVehicles (orchestrator w)) = None →
  (∀ s : string,
     runCallback (CbDeactivate (APrim (JStr s))) w
     = (Throw (TypeError "Cannot read property 'setActive' of null"), w)) ∧
  (∀ o : Message, o !! "tid" = None →
     runCallback (CbDeactivate (AObj o)) w
     = (Throw (TypeError "Cannot read property 'setActive' of null"), w)).
Proof.
  intros Hf. split.
  - intros s. unfold runCallback, bind, getVehicleByID, gets. simpl.
    rewrite Hf. reflexivity.
  - intros o Ho. unfold runCallback, bind, getVehicleByID, gets. simpl.
    unfold getField. rewrite Ho. simpl. rewrite Hf. reflexivity.
Qed.

(** X28.  The type of a message is matched the way JavaScript upper-cases
    it, beyond the letters a-z: a type written with a dotless i (U+0131) is
    a POI, so [isValidFormat] asks it for [lat] and [lon] like any POI and
    [messageRecipients] and [processMessage] treat it as one; other
    characters outside ASCII never make a known type. *)
Theorem type_matching_follows_toUpperCase :
  let poi := "po" +:+ String (ascii_of_nat 196) (String (ascii_of_nat 177) "") in
  let bare : Message :=
    list_to_map [("id", JNum 3); ("type", JStr poi); ("vehicleID", JStr "V1")] in
  let full : Message := <["lat" := JNum 1]> (<["lon" := JNum 2]> bare) in
  toUpperCase "connect" = "CONNECT" ∧
  toUpperCase "Update" = "UPDATE" ∧
  toUpperCase poi = "POI" ∧
  toUpperCase ("po" +:+ String (ascii_of_nat 195) (String (ascii_of_nat 175) "")) ≠ "POI" ∧
  missingFields bare (specRequiredFields (toUpperCase poi)) = ["lat"; "lon"] ∧
  fst (isValidFormat bare fleetV1) ≠ Normal VTrue ∧
  isValidFormat full fleetV1 = (Normal VTrue, fleetV1).
Proof.
  cbv zeta. do 3 (split; [reflexivity|]). split; [discriminate|].
  split; [reflexivity|]. split; [discriminate|reflexivity].
Qed.

(** X8.  [isValidFormat] never answers [false] and never changes anything:
    every path that would send the BADMESSAGE reply stops in [nextMsgID]
    before [sendMessageTo] is reached, so the outcome is [true], [null] or a
    thrown error, and the world is the one it started from.  A [type] that is
    present but not a string makes it throw, and so does a typed message
    that carries a [vehicleID] and lacks a required field. *)
Theorem isValidFormat_never_false (msg : Message) (w : World) :
  snd (isValidFormat msg w) = w ∧
  fst (isValidFormat msg w) ≠ Normal VFalse ∧
  (∀ v, msg !! "type" = Some v → (∀ t, v ≠ JStr t) →
        ∃ e, fst (isValidFormat msg w) = Throw e) ∧
  (∀ t f, msg !! "type" = Some (JStr t) → is_Some (msg !! "vehicleID") →
          f ∈ specRequiredFields (toUpperCase t) → msg !! f = None →
          ∃ e, fst (isValidFormat msg w) = Throw e).
Proof.
  destruct (msg !! "type") as [v|] eqn:Hty.
  2: { unfold isValidFormat.
       apply hasOwnProperty_false in Hty. rewrite Hty. cbn [negb].
       split; [reflexivity|]. split; [discriminate|].
       split; [intros v [=]|intros t f [=]]. }
  destruct v as [| | | |t].
  1-4: unfold isValidFormat;
       rewrite (proj2 (hasOwnProperty_true msg "type"))
         by (rewrite Hty; eauto);
       unfold getField; rewrite Hty; cbn [negb default];
       (split; [reflexivity|]); (split; [discriminate|]);
       (split; [intros v' _ _; eexists; reflexivity|intros t f [=]]).
  rewrite (isValidFormat_string msg t w Hty). cbn [fst snd].
  split; [reflexivity|]. split.
  { destruct (missingFields _ _); [discriminate|].
    destruct (hasOwnProperty msg "vehicleID"); discriminate. }
  split.
  { intros v' [= <-] Hns. by destruct (Hns t). }
  intros t' f [= <-] Hveh Hreq Hf.
  assert (Hin : f ∈ missingFields msg (specRequiredFields (toUpperCase t)))
    by (apply elem_of_missingFields; done).
  destruct (missingFields _ _) as [|f0 fs]; [by apply not_elem_of_nil in Hin|].
  apply hasOwnProperty_true in Hveh. rewrite Hveh. eexists. reflexivity.
Qed.

(** X9.  [receiveMessage] never returns normally: it appends the message id
    to [messagesReceived] and then throws in [ack], before the sender's
    [lastConnTime] is refreshed.  So no vehicle, timer, outbox entry or
    sent-record changes, and the only trace of a delivery is the recorded
    id. *)
Theorem receiveMessage_always_throws (msg : Message) (w : World) :
  let w' := snd (receiveMessage msg w) in
  (∃ e, fst (receiveMessage msg w) = Throw e) ∧
  messagesReceived (messageHandler w')
  = messagesReceived (messageHandler w) ++ [getField msg "id"] ∧
  vehicles w' = vehicles w ∧
  orchestrator w' = orchestrator w ∧
  messageOutbox (messageHandler w') = messageOutbox (messageHandler w) ∧
  messagesSent (messageHandler w') = messagesSent (messageHandler w) ∧
  updateHandler (messageHandler w') = updateHandler (messageHandler w).
Proof.
  cbv zeta. rewrite receiveMessage_eq. split; [eexists; reflexivity|].
  repeat split.
Qed.

(** *** The schedule: adding, starting, ending *)


(** X11.  While a mission is running [addMissions] looks at nothing in the
    batch: it writes one line to the console and returns, and the schedule,
    the status table, the missions and everything else are as before,
    whatever the batch holds. *)
Theorem addMissions_refused_while_running (batch : list Entry) (w : World) :
  isRunning (orchestrator w) = true →
  ∃ line, addMissions batch w = (Normal tt, withConsole (λ c, c ++ [line]) w).
Proof.
  intros Hrun. unfold addMissions, bind, gets. rewrite Hrun.
  eexists. reflexivity.
Qed.

(** X12.  A [null] or [undefined] entry makes [addMissions] throw while it
    builds its log line, before [reset] is called: the set-up missions that
    stood before it in the batch stay scheduled behind the earlier schedule,
    and the entries after it are never looked at. *)
Theorem addMissions_null_entry_keeps_prefix
    (pre rest : list Entry) (e : Entry) (w : World) :
  isRunning (orchestrator w) = false →
  forallb (setUp (missions w)) pre = true →
  isNullish e = true →
  let w' := snd (addMissions (pre ++ e :: rest) w) in
  (∃ err, fst (addMissions (pre ++ e :: rest) w) = Throw err) ∧
  scheduledMissions (orchestrator w')
  = scheduledMissions (orchestrator w) ++ entryRefs pre ∧
  scheduledMissionsStatus (orchestrator w')
  = scheduledMissionsStatus (orchestrator w)
      ++ statusesOf (missions w) (entryRefs pre) ∧
  console w' = console w.
Proof.
  intros Hrun Hall He. cbv zeta.
  assert (Heq : ∃ err, addMissions (pre ++ e :: rest) w
                       = (Throw err, acceptAll (entryRefs pre) w)).
  { unfold addMissions, bind, gets. rewrite Hrun.
    rewrite addMissionsFrom_prefix by done.
    destruct e; try discriminate; eexists; reflexivity. }
  destruct Heq as [err ->]. cbn [fst snd].
  destruct (setUp_entryRefs _ _ Hall) as [Hheap _].
  destruct (acceptAll_effect (entryRefs pre) w Hheap)
    as (Hs & Hst & _ & _ & _ & _ & _ & _ & Hco & _).
  split; [eauto|]. split; [exact Hs|]. split; [exact Hst|exact Hco].
Qed.

(** X27.  An entry that is not a Mission and has no constructor (an object
    made by [Object.create(null)], say) makes [addMissions] throw while it
    builds its log line, at [mission.constructor.name] and before [reset]
    is called: the set-up missions that stood before it in the batch stay
    scheduled behind the earlier schedule, nothing is logged, and the
    entries after it are never looked at. *)
Theorem addMissions_bare_entry_keeps_prefix (pre rest : list Entry) (w : World) :
  isRunning (orchestrator w) = false →
  forallb (setUp (missions w)) pre = true →
  let w' := snd (addMissions (pre ++ EBare :: rest) w) in
  fst (addMissions (pre ++ EBare :: rest) w)
  = Throw (TypeError "Cannot read property 'name' of undefined or null") ∧
  scheduledMissions (orchestrator w')
  = scheduledMissions (orchestrator w) ++ entryRefs pre ∧
  scheduledMissionsStatus (orchestrator w')
  = scheduledMissionsStatus (orchestrator w)
      ++ statusesOf (missions w) (entryRefs pre) ∧
  console w' = console w.
Proof.
  intros Hrun Hall. cbv zeta.
  assert (Heq : addMissions (pre ++ EBare :: rest) w
                = (Throw (TypeError "Cannot read property 'name' of undefined or null"),
                   acceptAll (entryRefs pre) w)).
  { unfold addMissions, bind, gets. rewrite Hrun.
    rewrite addMissionsFrom_prefix by done. reflexivity. }
  rewrite Heq. cbn [fst snd].
  destruct (setUp_entryRefs _ _ Hall) as [Hheap _].
  destruct (acceptAll_effect (entryRefs pre) w Hheap)
    as (Hs & Hst & _ & _ & _ & _ & _ & _ & Hco & _).
  split; [reflexivity|]. split; [exact Hs|]. split; [exact Hst|exact Hco].
Qed.

Lemma fold_left_andb_ready (l : list JVal) (b : bool) :
  fold_left (λ acc (status : JVal), acc && bool_decide (status = "READY")) l b
  = b && forallb (λ status : JVal, bool_decide (status = "READY")) l.
Proof.
  revert b. induction l as [|s l IH]; intros b; simpl.
  - by rewrite andb_true_r.
  - rewrite IH. by rewrite andb_assoc.
Qed.

(** X13.  [allMissionsAreReady] reads only, and answers [true] exactly when
    every entry of the status table is the string [READY]; on an empty
    schedule it answers [true]. *)
Theorem allMissionsAreReady_iff (w : World) :
  ∃ b : bool,
    allMissionsAreReady w = (Normal b, w) ∧
    (b = true ↔
       ∀ s : JVal, s ∈ scheduledMissionsStatus (orchestrator w) → s = "READY") ∧
    (scheduledMissionsStatus (orchestrator w) = [] → b = true).
Proof.
  eexists. split; [reflexivity|].
  rewrite fold_left_andb_ready. cbn [andb].
  split.
  - rewrite forallb_forall. split.
    + intros H s Hs. apply list_elem_of_In in Hs. apply H in Hs.
      by apply bool_decide_eq_true in Hs.
    + intros H s Hs. apply bool_decide_eq_true. apply H. by apply list_elem_of_In.
  - intros ->. reflexivity.
Qed.

(** X14.  [startMission] on a mission whose own [status] is READY: the
    orchestrator is marked running, the mission at the current index becomes
    the current mission and is started with exactly the data passed in, and
    the active vehicles are read from the mission after it has been
    started.  The schedule and the index are not written.  The status table
    is written by the mission's status listeners and by nothing else: it is
    as before when the mission is still READY after its start, and
    otherwise every listener of the mission writes the new status to the
    position it was registered for.  For a mission that carries one
    listener, for a position the table has, that is the entry at that
    position and no other. *)
Theorem startMission_ready
    (missionStart : JVal → Mission.t → Mission.t) (requiredData : JVal)
    (w : World) (r : nat) (m : Mission.t) :
  scheduledMissions (orchestrator w) !! currentMissionIndex (orchestrator w) = Some r →
  missions w !! r = Some m →
  Mission.status m = "READY" →
  let w' := snd (startMission missionStart requiredData w) in
  let m' := missionStart requiredData m in
  let table := scheduledMissionsStatus (orchestrator w) in
  fst (startMission missionStart requiredData w) = Normal tt ∧
  isRunning (orchestrator w') = true ∧
  currentMission (orchestrator w') = Some r ∧
  missions w' = alter (missionStart requiredData) r (missions w) ∧
  missions w' !! r = Some m' ∧
  currentMissionVehicles (orchestrator w') = Some (Mission.activeVehicles m') ∧
  scheduledMissions (orchestrator w') = scheduledMissions (orchestrator w) ∧
  scheduledMissionsStatus (orchestrator w')
  = (if decide (Mission.status m' = "READY") then table
     else fold_left (λ a i, arrayWrite i (JStr (Mission.status m')) a)
            (Mission.listeners m') table) ∧
  (∀ i, Mission.status m' ≠ "READY" → Mission.listeners m' = [i] →
        (i < length table)%nat →
        scheduledMissionsStatus (orchestrator w')
        = <[i := JStr (Mission.status m')]> table) ∧
  currentMissionIndex (orchestrator w') = currentMissionIndex (orchestrator w) ∧
  vehicles w' = vehicles w ∧ messageHandler w' = messageHandler w.
Proof.
  intros Hidx Hm Hst. cbv zeta.
  rewrite (startMission_ready_eq missionStart requiredData w r m Hidx Hm Hst).
  cbn [fst snd].
  do 4 (split; [reflexivity|]).
  split; [cbn; by rewrite lookup_alter_eq, Hm|].
  do 3 (split; [reflexivity|]).
  split; [|repeat split].
  intros i Hne Hl Hlt.
  cbn [orchestrator withOrchestrator withMissions scheduledMissionsStatus
       setCurrentMissionVehicles setScheduledMissionsStatus setScheduled
       setCurrentMission setIsRunning].
  unfold transitionTable, reported. rewrite decide_False by exact Hne.
  rewrite Hl. cbn [fold_left]. unfold arrayWrite.
  destruct (Nat.ltb_spec i (length (scheduledMissionsStatus (orchestrator w))));
    [reflexivity|lia].
Qed.

(** X15.  When [startMission] cannot start: with no mission at the current
    index (an empty schedule, say) it throws and changes nothing; with a
    mission there whose status is not READY it clears the running flag and
    then looks for the current mission's name to log, which throws when no
    mission has been started before, and logs that name (the name of the
    mission started last, not of the one that is not ready) otherwise.  No
    mission is started either way. *)
Theorem startMission_refused
    (missionStart : JVal → Mission.t → Mission.t) (requiredData : JVal) (w : World) :
  let w' := snd (startMission missionStart requiredData w) in
  (scheduledMissions (orchestrator w) !! currentMissionIndex (orchestrator w) = None →
     startMission missionStart requiredData w
     = (Throw (TypeError "Cannot read property 'status' of undefined"), w)) ∧
  (∀ r m,
     scheduledMissions (orchestrator w) !! currentMissionIndex (orchestrator w) = Some r →
     missions w !! r = Some m →
     Mission.status m ≠ "READY" →
     isRunning (orchestrator w') = false ∧
     missions w' = missions w ∧
     currentMission (orchestrator w') = currentMission (orchestrator w) ∧
     scheduledMissions (orchestrator w') = scheduledMissions (orchestrator w) ∧
     (currentMission (orchestrator w) = None →
        fst (startMission missionStart requiredData w)
        = Throw (TypeError "Cannot read property 'name' of null") ∧
        console w' = console w) ∧
     (∀ c mc, currentMission (orchestrator w) = Some c → missions w !! c = Some mc →
        fst (startMission missionStart requiredData w) = Normal tt ∧
        console w'
        = console w ++ [["FAILURE: (in Class `Orchestrator`) "; Mission.name mc]])).
Proof.
  cbv zeta. split.
  - intros Hidx. unfold startMission, bind, gets. cbn [fst snd]. by rewrite Hidx.
  - intros r m Hidx Hm Hst.
    assert (Heq : startMission missionStart requiredData w
                  = (nm <- currentMissionName ;; Orchestrator_log nm)
                      (withOrchestrator (setIsRunning false) w)).
    { unfold startMission. unfold bind at 1. unfold gets. cbn [fst snd].
      rewrite Hidx. unfold bind at 1. unfold derefMission. rewrite Hm.
      rewrite decide_False by exact Hst. reflexivity. }
    destruct (currentMission (orchestrator w)) as [c|] eqn:Hc.
    + destruct (missions w !! c) as [mc|] eqn:Hmc.
      * assert (Heq2 : startMission missionStart requiredData w
          = (Normal tt,
             withConsole (λ co, co ++ [["FAILURE: (in Class `Orchestrator`) "; Mission.name mc]])
               (withOrchestrator (setIsRunning false) w))).
        { rewrite Heq. unfold currentMissionName, bind, gets, derefMission.
          cbn [fst snd orchestrator withOrchestrator currentMission setIsRunning].
          rewrite Hc. cbn [missions withOrchestrator]. rewrite Hmc. reflexivity. }
        rewrite Heq2. cbn [fst snd].
        do 2 (split; [reflexivity|]). split; [exact Hc|]. split; [reflexivity|].
        split; [discriminate|].
        intros c' mc' [= <-] Hmc'. rewrite Hmc in Hmc'. injection Hmc' as <-.
        split; reflexivity.
      * assert (Heq2 : ∃ e, startMission missionStart requiredData w
                            = (Throw e, withOrchestrator (setIsRunning false) w)).
        { rewrite Heq. unfold currentMissionName, bind, gets, derefMission.
          cbn [fst snd orchestrator withOrchestrator currentMission setIsRunning].
          rewrite Hc. cbn [missions withOrchestrator]. rewrite Hmc. eexists. reflexivity. }
        destruct Heq2 as [e ->]. cbn [fst snd].
        do 2 (split; [reflexivity|]). split; [exact Hc|]. split; [reflexivity|].
        split; [discriminate|].
        intros c' mc' [= <-] Hmc'. rewrite Hmc in Hmc'. discriminate.
    + assert (Heq2 : startMission missionStart requiredData w
          = (Throw (TypeError "Cannot read property 'name' of null"),
             withOrchestrator (setIsRunning false) w)).
      { rewrite Heq. unfold currentMissionName, bind, gets.
        cbn [fst snd orchestrator withOrchestrator currentMission setIsRunning].
        rewrite Hc. reflexivity. }
      rewrite Heq2. cbn [fst snd].
      do 2 (split; [reflexivity|]). split; [exact Hc|]. split; [reflexivity|].
      split; [intros _; split; reflexivity|].
      intros c mc [=].
Qed.

(** X16.  [endMission] never starts a mission.  It stores the data and moves
    the index on by one; when the new index is at most the length of the
    schedule it resets the orchestrator (which clears the stored data
    again), and when the new index is beyond the length it calls
    [startMission] on a position that holds no mission and throws, leaving
    the advanced index and the stored data behind.  The mission objects are
    untouched in both cases. *)
Theorem endMission_never_starts
    (missionStart : JVal → Mission.t → Mission.t) (nextRequired : JVal) (w : World) :
  let w' := snd (endMission missionStart nextRequired w) in
  let next := (currentMissionIndex (orchestrator w) + 1)%nat in
  missions w' = missions w ∧
  knownVehicles (orchestrator w') = knownVehicles (orchestrator w) ∧
  ((next ≤ length (scheduledMissions (orchestrator w)))%nat →
     fst (endMission missionStart nextRequired w) = Normal tt ∧
     isReset (orchestrator w') ∧
     nextMissionRequiredData (orchestrator w') = JNull) ∧
  ((length (scheduledMissions (orchestrator w)) < next)%nat →
     fst (endMission missionStart nextRequired w)
     = Throw (TypeError "Cannot read property 'status' of undefined") ∧
     currentMissionIndex (orchestrator w') = next ∧
     nextMissionRequiredData (orchestrator w') = nextRequired ∧
     scheduledMissions (orchestrator w') = scheduledMissions (orchestrator w) ∧
     isRunning (orchestrator w') = isRunning (orchestrator w)).
Proof.
  cbv zeta. unfold endMission, bind, modify, gets. cbn [fst snd].
  cbn [orchestrator withOrchestrator scheduledMissions currentMissionIndex
       setCurrentMissionIndex setNextMissionRequiredData].
  destruct (Nat.ltb_spec (length (scheduledMissions (orchestrator w)))
              (currentMissionIndex (orchestrator w) + 1)) as [Hlt|Hge].
  - unfold startMission, bind, gets. cbn [fst snd].
    cbn [orchestrator withOrchestrator scheduledMissions currentMissionIndex
         setCurrentMissionIndex setNextMissionRequiredData].
    rewrite (lookup_ge_None_2 (scheduledMissions (orchestrator w))) by lia.
    split; [reflexivity|]. split; [reflexivity|].
    split; [intros H; lia|]. intros _. repeat split.
  - split; [reflexivity|]. split; [reflexivity|].
    split; [|intros H; lia]. intros _. repeat split.
Qed.

(** X17.  [reset] followed by [addMissions]: from any world, running or not
    and whatever was scheduled, resetting and then adding a batch of set-up
    missions leaves exactly that batch scheduled, from index 0, not running.
    [reset] itself keeps the fleet, the timers and the message handler, and
    resetting twice is the same as resetting once. *)
Theorem reset_then_addMissions (batch : list Entry) (w : World) :
  forallb (setUp (missions w)) batch = true →
  let w1 := snd (reset w) in
  let w2 := snd (addMissions batch w1) in
  fst (reset w) = Normal tt ∧
  knownVehicles (orchestrator w1) = knownVehicles (orchestrator w) ∧
  vehicleStatusUpdater (orchestrator w1) = vehicleStatusUpdater (orchestrator w) ∧
  vehicles w1 = vehicles w ∧ missions w1 = missions w ∧
  messageHandler w1 = messageHandler w ∧
  snd (reset w1) = w1 ∧
  fst (addMissions batch w1) = Normal tt ∧
  scheduledMissions (orchestrator w2) = entryRefs batch ∧
  scheduledMissionsStatus (orchestrator w2) = statusesOf (missions w) (entryRefs batch) ∧
  isRunning (orchestrator w2) = false ∧
  currentMissionIndex (orchestrator w2) = 0%nat ∧
  currentMission (orchestrator w2) = None.
Proof.
  intros Hall. cbv zeta.
  do 7 (split; [reflexivity|]).
  assert (Heq : addMissions batch (snd (reset w))
                = (Normal tt, acceptAll (entryRefs batch) (snd (reset w)))).
  { unfold addMissions, bind, gets. cbn [fst snd].
    cbn [orchestrator isRunning reset modify withOrchestrator snd].
    rewrite <- (app_nil_r batch) at 1.
    by rewrite addMissionsFrom_prefix. }
  rewrite Heq. cbn [fst snd].
  destruct (setUp_entryRefs _ _ Hall) as [Hheap _].
  destruct (acceptAll_effect (entryRefs batch) (snd (reset w)) Hheap)
    as (Hs & Hst & Hr & Hcur & Hidx & _).
  split; [reflexivity|]. split; [exact Hs|]. split; [exact Hst|].
  split; [exact Hr|]. split; [exact Hidx|exact Hcur].
Qed.

(** *** Routing the other message types *)

(** X18.  A message that is not a CONNECT (its type is matched in upper
    case) from a sender the registry does not know is dropped: one console
    line, nothing else changes and nothing is sent.  From a known sender
    that is inactive it is dropped as well, after a [stop] message has been
    handed to [sendMessageTo]; the vehicle itself, the registry and the
    missions stay as they are. *)
Theorem processMessage_unknown_or_inactive_sender
    (timeout : Z) (vehicleUpdate : Message → Vehicle.t → Vehicle.t)
    (missionUpdate : Message → Mission.t → Mission.t)
    (message : Message) (t : string) (w : World) :
  getField message "type" = JStr t →
  toUpperCase t ≠ "CONNECT" →
  let run := processMessage timeout vehicleUpdate missionUpdate message w in
  let w' := snd run in
  let lookup := findVehicle (vehicles w) (getField message "sid")
                  (knownVehicles (orchestrator w)) in
  (lookup = None →
     ∃ line, run = (Normal tt, withConsole (λ c, c ++ [line]) w)) ∧
  (∀ r v, lookup = Some r → vehicles w !! r = Some v → Vehicle.isActive v = false →
     fst run = Normal tt ∧
     vehicles w' = vehicles w ∧ orchestrator w' = orchestrator w ∧
     missions w' = missions w ∧
     messagesSent (messageHandler w') = messagesSent (messageHandler w) ++ [JUndefined] ∧
     messageOutbox (messageHandler w') = messageOutbox (messageHandler w) ∧
     ∃ line, console w' = console w ++ [line]).
Proof.
  intros Ht Hu. cbv zeta.
  assert (Hhead : ∀ k : option nat → string → JS unit,
            (vehc <- getVehicleByID (getField message "sid") ;;
             msgStr <- callToUpperCase (getField message "type") ;; k vehc msgStr) w
            = k (findVehicle (vehicles w) (getField message "sid")
                   (knownVehicles (orchestrator w))) (toUpperCase t) w).
  { intros k. unfold bind, getVehicleByID, gets. rewrite Ht. reflexivity. }
  unfold processMessage. rewrite Hhead.
  destruct (decide (toUpperCase t = "CONNECT")) as [E|_]; [contradiction|].
  split.
  - intros ->. eexists. reflexivity.
  - intros r v -> Hv Ha.
    assert (Hrun : ∃ line,
      (v0 <- derefVehicle r ;;
       if negb (Vehicle.isActive v0)
       then
         Orchestrator_log
           ("In Class 'Orchestrator', method 'processMessage': Received an update message for inactive vehicle with VID: "
            +:+ toString (getField message "sid") +:+ "; sending stop...") ;;
         sendMessageTo (Vehicle.id v0) (list_to_map [("type", JStr "stop")])
       else if decide (toUpperCase t = "UPDATE")
            then modify (withVehicles (alter (vehicleUpdate message) r))
            else if decide (toUpperCase t = "POI" ∨ toUpperCase t = "COMPLETE")
                 then
                   o <- gets orchestrator ;;
                   match currentMissionVehicles o with
                   | None => throw (TypeError "Cannot use 'in' operator to search in null")
                   | Some keys =>
                       if decide (toString (getField message "sid") ∈ keys)
                       then
                         match scheduledMissions o !! currentMissionIndex o with
                         | None => throw (TypeError "Cannot read property 'missionUpdate' of undefined")
                         | Some mr => modify (withMissions (alter (missionUpdate message) mr))
                         end
                       else ret tt
                   end
                 else ret tt) w
      = sendMessageTo (Vehicle.id v) (list_to_map [("type", JStr "stop")])
          (withConsole (λ c, c ++ [line]) w)).
    { unfold bind at 1. unfold derefVehicle. rewrite Hv, Ha. eexists. reflexivity. }
    destruct Hrun as [line ->].
    rewrite (sendMessageTo_string _ _ "stop") by reflexivity.
    cbn [fst snd].
    do 4 (split; [reflexivity|]). split; [reflexivity|]. split; [reflexivity|].
    exists line. reflexivity.
Qed.

(** X19.  From an active sender: an UPDATE is handed to the sender's own
    vehicle object and to nothing else (the registry, the other vehicles,
    the missions and the message handler are untouched, and nothing is
    logged or sent); a message of any type other than CONNECT, UPDATE, POI
    and COMPLETE is ignored without a trace. *)
Theorem processMessage_update_from_active_sender
    (timeout : Z) (vehicleUpdate : Message → Vehicle.t → Vehicle.t)
    (missionUpdate : Message → Mission.t → Mission.t)
    (message : Message) (t : string) (w : World) (r : nat) (v : Vehicle.t) :
  getField message "type" = JStr t →
  findVehicle (vehicles w) (getField message "sid")
    (knownVehicles (orchestrator w)) = Some r →
  vehicles w !! r = Some v →
  Vehicle.isActive v = true →
  let run := processMessage timeout vehicleUpdate missionUpdate message w in
  (toUpperCase t = "UPDATE" →
     run = (Normal tt, withVehicles (alter (vehicleUpdate message) r) w) ∧
     vehicles (snd run) !! r = Some (vehicleUpdate message v) ∧
     ∀ x, x ≠ r → vehicles (snd run) !! x = vehicles w !! x) ∧
  (toUpperCase t ≠ "CONNECT" → toUpperCase t ≠ "UPDATE" →
   toUpperCase t ≠ "POI" → toUpperCase t ≠ "COMPLETE" →
     run = (Normal tt, w)).
Proof.
  intros Ht Hf Hv Ha. cbv zeta.
  assert (Hhead : ∀ k : option nat → string → JS unit,
            (vehc <- getVehicleByID (getField message "sid") ;;
             msgStr <- callToUpperCase (getField message "type") ;; k vehc msgStr) w
            = k (Some r) (toUpperCase t) w).
  { intros k. unfold bind, getVehicleByID, gets. rewrite Ht, Hf. reflexivity. }
  unfold processMessage. rewrite Hhead. split.
  - intros Hu.
    assert (Heq : ∀ X, X = (Normal tt, withVehicles (alter (vehicleUpdate message) r) w) →
              X = (Normal tt, withVehicles (alter (vehicleUpdate message) r) w) ∧
              vehicles (snd X) !! r = Some (vehicleUpdate message v) ∧
              ∀ x, x ≠ r → vehicles (snd X) !! x = vehicles w !! x).
    { intros X ->. split; [reflexivity|]. cbn [snd vehicles withVehicles]. split.
      - by rewrite lookup_alter_eq, Hv.
      - intros x Hx. by rewrite lookup_alter_ne. }
    apply Heq. rewrite Hu.
    destruct (decide ("UPDATE" = "CONNECT")) as [E|_]; [discriminate|].
    unfold bind, derefVehicle. cbv beta. rewrite Hv, Ha. reflexivity.
  - intros H1 H2 H3 H4.
    destruct (decide (toUpperCase t = "CONNECT")) as [E|_]; [contradiction|].
    destruct (decide (toUpperCase t = "UPDATE")) as [E|_]; [contradiction|].
    destruct (decide (toUpperCase t = "POI" ∨ toUpperCase t = "COMPLETE"))
      as [[E|E]|_]; [contradiction|contradiction|].
    unfold bind, derefVehicle. cbv beta. rewrite Hv, Ha. reflexivity.
Qed.

(** X20.  A POI or COMPLETE from an active sender: before any mission has
    been started [currentMissionVehicles] is [null] and the [in] test throws;
    once it is set, the message goes to [missionUpdate] of the mission at
    the current index when the sender's id is a key of the active vehicles,
    and is dropped without a trace when it is not.  Only that one mission
    object can change. *)
Theorem processMessage_poi_or_complete
    (timeout : Z) (vehicleUpdate : Message → Vehicle.t → Vehicle.t)
    (missionUpdate : Message → Mission.t → Mission.t)
    (message : Message) (t : string) (w : World) (r : nat) (v : Vehicle.t) :
  getField message "type" = JStr t →
  toUpperCase t = "POI" ∨ toUpperCase t = "COMPLETE" →
  findVehicle (vehicles w) (getField message "sid")
    (knownVehicles (orchestrator w)) = Some r →
  vehicles w !! r = Some v →
  Vehicle.isActive v = true →
  let run := processMessage timeout vehicleUpdate missionUpdate message w in
  (currentMissionVehicles (orchestrator w) = None →
     run = (Throw (TypeError "Cannot use 'in' operator to search in null"), w)) ∧
  (∀ keys, currentMissionVehicles (orchestrator w) = Some keys →
     (toString (getField message "sid") ∉ keys → run = (Normal tt, w)) ∧
     (toString (getField message "sid") ∈ keys →
        (∀ mr, scheduledMissions (orchestrator w) !! currentMissionIndex (orchestrator w)
               = Some mr →
           run = (Normal tt, withMissions (alter (missionUpdate message) mr) w)) ∧
        (scheduledMissions (orchestrator w) !! currentMissionIndex (orchestrator w) = None →
           run = (Throw (TypeError "Cannot read property 'missionUpdate' of undefined"), w)))).
Proof.
  intros Ht Hu Hf Hv Ha. cbv zeta.
  assert (Hnc : toUpperCase t ≠ "CONNECT") by (destruct Hu as [-> | ->]; discriminate).
  assert (Hnu : toUpperCase t ≠ "UPDATE") by (destruct Hu as [-> | ->]; discriminate).
  assert (Hhead : ∀ k : option nat → string → JS unit,
            (vehc <- getVehicleByID (getField message "sid") ;;
             msgStr <- callToUpperCase (getField message "type") ;; k vehc msgStr) w
            = k (Some r) (toUpperCase t) w).
  { intros k. unfold bind, getVehicleByID, gets. rewrite Ht, Hf. reflexivity. }
  unfold processMessage. rewrite Hhead.
  destruct (decide (toUpperCase t = "CONNECT")) as [E|_]; [contradiction|].
  destruct (decide (toUpperCase t = "UPDATE")) as [E|_]; [contradiction|].
  destruct (decide (toUpperCase t = "POI" ∨ toUpperCase t = "COMPLETE"))
    as [_|E]; [|contradiction].
  unfold bind, derefVehicle, gets. cbv beta. rewrite Hv, Ha. cbn [negb fst snd].
  split.
  - intros ->. reflexivity.
  - intros keys ->. split.
    + intros Hnin.
      destruct (decide (toString (getField message "sid") ∈ keys)); [contradiction|].
      reflexivity.
    + intros Hin.
      destruct (decide (toString (getField message "sid") ∈ keys)); [|contradiction].
      split.
      * intros mr ->. reflexivity.
      * intros ->. reflexivity.
Qed.

(** X21.  A message that has no [type], or whose [type] is not a string,
    makes [processMessage] throw when it upper-cases the type, after the
    lookup of the sender and before anything is written. *)
Theorem processMessage_type_not_string
    (timeout : Z) (vehicleUpdate : Message → Vehicle.t → Vehicle.t)
    (missionUpdate : Message → Mission.t → Mission.t)
    (message : Message) (w : World) :
  (∀ t, getField message "type" ≠ JStr t) →
  ∃ e, processMessage timeout vehicleUpdate missionUpdate message w = (Throw e, w).
Proof.
  intros Hty. unfold processMessage, bind, getVehicleByID, gets.
  destruct (getField message "type") as [| | | |t] eqn:Hg;
    try (eexists; reflexivity).
  by destruct (Hty t).
Qed.

(** *** The singletons *)

Lemma staticsReachable_locked (s : Statics) :
  staticsReachable s →
  MessageHandler_singletonUnlock s ≠ Some true ∧
  Orchestrator_singletonUnlock s ≠ Some true.
Proof.
  induction 1 as [|now s _ [IH1 IH2]|now s _ [IH1 IH2]|now s _ [IH1 IH2]].
  - split; discriminate.
  - unfold MessageHandler_getInstance.
    destruct (MessageHandler_instance s); [done|].
    unfold MessageHandler_new. cbn. split; [discriminate|exact IH2].
  - unfold Orchestrator_getInstance.
    destruct (Orchestrator_instance s); [done|].
    unfold Orchestrator_new. cbn.
    unfold MessageHandler_getInstance. cbn.
    destruct (MessageHandler_instance s); cbn; [split; [exact IH1|discriminate]|].
    unfold MessageHandler_new. cbn. split; discriminate.
  - unfold Orchestrator_new. rewrite decide_False by exact IH2. done.
Qed.

(** X22.  Guarded construction: in every static state a program reaches
    through the [getInstance] accessors (and through refused attempts),
    [new MessageHandler()] and [new Orchestrator()] called directly throw
    the error that points to [getInstance()].  The unlock flag is only true
    inside [getInstance]. *)
Theorem direct_construction_refused (s : Statics) (now : Z) :
  staticsReachable s →
  MessageHandler_new now s
  = Refused "MessageHandler must be acquired with the getInstance() method!" ∧
  Orchestrator_new now s
  = (Refused "Orchestrator must be acquired with the getInstance() method!", s).
Proof.
  intros Hr. destruct (staticsReachable_locked s Hr) as [H1 H2].
  unfold MessageHandler_new, Orchestrator_new.
  rewrite !decide_False by done. done.
Qed.

(** X23.  [Orchestrator.getInstance()] always succeeds from a reachable
    static state, and creates the message handler on the way when it is not
    there yet.  Once it has returned, every later [getInstance] of either
    class answers the instance already stored and changes nothing, whatever
    the clock: each class is constructed at most once. *)
Theorem getInstance_once (s : Statics) (now : Z) :
  staticsReachable s →
  let s1 := snd (Orchestrator_getInstance now s) in
  ∃ (o : Orchestrator) (h : MessageHandler),
    fst (Orchestrator_getInstance now s) = Made o ∧
    Orchestrator_instance s1 = Some o ∧
    MessageHandler_instance s1 = Some h ∧
    (∀ h0, MessageHandler_instance s = Some h0 → h = h0) ∧
    (∀ o0, Orchestrator_instance s = Some o0 → o = o0 ∧ s1 = s) ∧
    (∀ now', Orchestrator_getInstance now' s1 = (Made o, s1)) ∧
    (∀ now', MessageHandler_getInstance now' s1 = (Made h, s1)).
Proof.
  intros Hr. cbv zeta.
  destruct (staticsReachable_locked s Hr) as [H1 H2].
  destruct s as [mh mu oi ou]. cbn in H1, H2.
  unfold Orchestrator_getInstance. cbn.
  destruct oi as [o|].
  - (* the orchestrator exists: so does the message handler *)
    assert (Hmh : is_Some mh).
    { clear H1 H2.
      remember (mkStatics mh mu (Some o) ou) as s eqn:Hs.
      revert mh mu o ou Hs.
      induction Hr as [|now0 s0 Hr0 IH|now0 s0 Hr0 IH|now0 s0 Hr0 IH];
        intros mh mu o ou Hs.
      - discriminate.
      - unfold MessageHandler_getInstance in Hs.
        destruct s0 as [mh0 mu0 oi0 ou0]. cbn in Hs.
        destruct mh0 as [h0|]; cbn in Hs.
        + injection Hs as <- _ _ _. eauto.
        + unfold MessageHandler_new in Hs. cbn in Hs. injection Hs as <- _ _ _. eauto.
      - unfold Orchestrator_getInstance in Hs.
        destruct s0 as [mh0 mu0 oi0 ou0]. cbn in Hs.
        destruct oi0 as [o0|]; cbn in Hs.
        + injection Hs as <- _ <- _. by eapply IH.
        + unfold Orchestrator_new, MessageHandler_getInstance in Hs. cbn in Hs.
          destruct mh0 as [h0|]; cbn in Hs.
          * injection Hs as <- _ _ _. eauto.
          * unfold MessageHandler_new in Hs. cbn in Hs. injection Hs as <- _ _ _. eauto.
      - destruct (staticsReachable_locked s0 Hr0) as [_ Hl].
        unfold Orchestrator_new in Hs. rewrite decide_False in Hs by exact Hl.
        cbn in Hs. by eapply IH. }
    destruct Hmh as [h ->].
    exists o, h. cbn. repeat split; congruence.
  - unfold Orchestrator_new, MessageHandler_getInstance. cbn.
    destruct mh as [h|]; cbn.
    + exists newOrchestrator, h. repeat split; try congruence; discriminate.
    + unfold MessageHandler_new. cbn.
      exists newOrchestrator, (newMessageHandler now).
      repeat split; try congruence; discriminate.
Qed.

(** ** The further properties at concrete inputs *)

Lemma registryOnHeap_fleetV1 : registryOnHeap fleetV1.
Proof.
  intros r Hr. apply list_elem_of_singleton in Hr as ->. by eexists.
Qed.

Lemma singleHolder_fleetV1 : singleHolder fleetV1.
Proof. apply NoDup_singleton. Qed.

Lemma addVehicle_then_lookup_witness :
  findVehicle
    (vehicles (snd (addVehicle 0 (newWorld {[ 0%nat := vehicleV1 ]} ∅ 1000))))
    (JStr "V1")
    (knownVehicles (orchestrator
       (snd (addVehicle 0 (newWorld {[ 0%nat := vehicleV1 ]} ∅ 1000)))))
  = Some 0%nat.
Proof.
  destruct (addVehicle_then_lookup 0 vehicleV1
              (newWorld {[ 0%nat := vehicleV1 ]} ∅ 1000))
    as (_ & _ & _ & _ & Hfresh & _); [reflexivity|].
  apply Hfresh. reflexivity.
Defined.

Lemma pingAgain_f_active_witness :
  fst (pingAgain_f (Some 0%nat) fleetV1) = Normal tt ∧
  vehicles (snd (pingAgain_f (Some 0%nat) fleetV1)) = vehicles fleetV1.
Proof.
  destruct (pingAgain_f_active 0 vehicleV1 fleetV1)
    as (Hn & Hin & _); [reflexivity | reflexivity |].
  split; [exact Hn|]. apply Hin. vm_compute. split; discriminate.
Defined.

Lemma ack_timeout_deactivates_nobody_witness :
  runCallback (CbDeactivate (APrim (JStr "GCS"))) fleetV1
  = (Throw (TypeError "Cannot read property 'setActive' of null"), fleetV1).
Proof.
  destruct (ack_timeout_deactivates_nobody fleetV1) as [Hs _]; [reflexivity|].
  apply Hs.
Defined.


Lemma addMissions_refused_while_running_witness :
  ∃ line,
    addMissions [ENull] (runningM0 enterRunning (JStr "d0"))
    = (Normal tt,
       withConsole (λ c, c ++ [line]) (runningM0 enterRunning (JStr "d0"))).
Proof.
  apply (addMissions_refused_while_running [ENull]
           (runningM0 enterRunning (JStr "d0"))).
  reflexivity.
Defined.

Lemma addMissions_null_entry_keeps_prefix_witness :
  scheduledMissions
    (orchestrator (snd (addMissions ([EMission 0] ++ ENull :: [EMission 1]) twoMissions)))
  = [0%nat].
Proof.
  destruct (addMissions_null_entry_keeps_prefix [EMission 0] [EMission 1] ENull twoMissions)
    as (_ & Hs & _); [reflexivity | reflexivity | reflexivity |].
  exact Hs.
Defined.

Lemma addMissions_bare_entry_keeps_prefix_witness :
  scheduledMissions
    (orchestrator (snd (addMissions ([EMission 0] ++ EBare :: [EMission 1]) twoMissions)))
  = [0%nat].
Proof.
  destruct (addMissions_bare_entry_keeps_prefix [EMission 0] [EMission 1] twoMissions)
    as (_ & Hs & _); [reflexivity | reflexivity |].
  exact Hs.
Defined.

Lemma startMission_ready_witness :
  isRunning
    (orchestrator
       (snd (startMission enterRunning (JStr "d0")
               (snd (addMissions [EMission 0; EMission 1] twoMissions)))))
  = true.
Proof.
  destruct (startMission_ready enterRunning (JStr "d0")
              (snd (addMissions [EMission 0; EMission 1] twoMissions))
              0 (Mission.listenForStatusUpdates 0 (readyMission "M0")))
    as (_ & Hr & _); [reflexivity | reflexivity | reflexivity |].
  exact Hr.
Defined.

Lemma reset_then_addMissions_witness :
  scheduledMissions
    (orchestrator
       (snd (addMissions [EMission 1]
               (snd (reset (runningM0 enterRunning (JStr "d0")))))))
  = [1%nat].
Proof.
  destruct (reset_then_addMissions [EMission 1] (runningM0 enterRunning (JStr "d0")))
    as (_ & _ & _ & _ & _ & _ & _ & _ & Hs & _); [reflexivity|].
  exact Hs.
Defined.

Lemma processMessage_unknown_or_inactive_sender_witness :
  ∃ line,
    processMessage 30000 keepVehicle keepMission updateV1 emptyWorld
    = (Normal tt, withConsole (λ c, c ++ [line]) emptyWorld).
Proof.
  destruct (processMessage_unknown_or_inactive_sender 30000 keepVehicle keepMission
              updateV1 "update" emptyWorld) as [Hnone _];
    [reflexivity | discriminate |].
  apply Hnone. reflexivity.
Defined.

Lemma processMessage_update_from_active_sender_witness :
  processMessage 30000 keepVehicle keepMission updateV1 fleetV1
  = (Normal tt, withVehicles (alter (keepVehicle updateV1) 0%nat) fleetV1).
Proof.
  destruct (processMessage_update_from_active_sender 30000 keepVehicle keepMission
              updateV1 "update" fleetV1 0 vehicleV1) as [Hup _];
    [reflexivity | reflexivity | reflexivity | reflexivity |].
  destruct Hup as [Heq _]; [reflexivity|]. exact Heq.
Defined.

Lemma processMessage_poi_or_complete_witness :
  processMessage 30000 keepVehicle keepMission poiV1 fleetV1
  = (Throw (TypeError "Cannot use 'in' operator to search in null"), fleetV1).
Proof.
  destruct (processMessage_poi_or_complete 30000 keepVehicle keepMission
              poiV1 "POI" fleetV1 0 vehicleV1) as [Hnull _];
    [reflexivity | left; reflexivity | reflexivity | reflexivity | reflexivity |].
  apply Hnull. reflexivity.
Defined.

Lemma processMessage_type_not_string_witness :
  ∃ e, processMessage 30000 keepVehicle keepMission untypedV1 fleetV1
       = (Throw e, fleetV1).
Proof.
  apply (processMessage_type_not_string 30000 keepVehicle keepMission untypedV1 fleetV1).
  intros t. vm_compute. discriminate.
Defined.

Lemma direct_construction_refused_witness :
  MessageHandler_new 2000 (snd (Orchestrator_getInstance 1000 noStatics))
  = Refused "MessageHandler must be acquired with the getInstance() method!".
Proof.
  destruct (direct_construction_refused
              (snd (Orchestrator_getInstance 1000 noStatics)) 2000) as [Hm _].
  - apply sr_Orchestrator_getInstance, sr_start.
  - exact Hm.
Defined.

Lemma getInstance_once_witness :
  ∃ (o : Orchestrator) (h : MessageHandler),
    Orchestrator_getInstance 2000 (snd (Orchestrator_getInstance 1000 noStatics))
    = (Made o, snd (Orchestrator_getInstance 1000 noStatics)) ∧
    MessageHandler_getInstance 2000 (snd (Orchestrator_getInstance 1000 noStatics))
    = (Made h, snd (Orchestrator_getInstance 1000 noStatics)).
Proof.
  destruct (getInstance_once noStatics 1000 sr_start)
    as (o & h & _ & _ & _ & _ & _ & Ho & Hh).
  exists o, h. split; [apply Ho | apply Hh].
Defined.

Lemma processMessage_connect_singleHolder_witness :
  singleHolder (snd (processMessage 30000 keepVehicle keepMission connectV1 fleetV1)).
Proof.
  destruct (processMessage_connect_singleHolder 30000 keepVehicle keepMission
              connectV1 "CONNECT" fleetV1) as [_ Hs];
    [reflexivity | reflexivity | exact registryOnHeap_fleetV1
     | exact singleHolder_fleetV1 |].
  exact Hs.
Defined.

Lemma findVehicle_singleHolder_witness :
  findVehicle (vehicles fleetV1) (JStr "V1") (knownVehicles (orchestrator fleetV1))
  = Some 0%nat.
Proof.
  apply findVehicle_singleHolder.
  - exact singleHolder_fleetV1.
  - apply list_elem_of_here.
  - reflexivity.
Defined.
